(** * simulate_taylor.py: fixed-point helpers and the pipelined Horner evaluator

    A shallow embedding of the bit-accurate Python model of [taylor_poly.v]:
    the helpers [to_signed], [to_unsigned], [fp_mul_trunc] and the class
    [TaylorPolyPipeline] with its methods [__init__], [reset] and [clock].

    Python integers are unbounded, so they are [Z]; Python's [&], [<<] and
    [>>] on integers are [Z.land], [Z.shiftl] and [Z.shiftr] (two's complement
    with infinite sign extension, shifts rounding towards minus infinity),
    except that a negative shift count raises [ValueError].  List indexing
    raises [IndexError] out of range and counts from the end for a negative
    index.  Converting between ints and floats raises [OverflowError] beyond
    the range of a float, and [ValueError] for a nan.  Exceptions are an
    explicit result type threaded through a small monad. *)

From stdpp Require Import base list numbers.
From Stdlib Require Import ZArith Lia.
From Stdlib Require SpecFloat.

Local Open Scope Z_scope.

(** ** Python exceptions and the result monad *)

Inductive PyExn : Type :=
  IndexError | ValueError | OverflowError | ZeroDivisionError.

Inductive Result (A : Type) : Type :=
| Ok (a : A)
| Raise (e : PyExn).

Arguments Ok {A} a.
Arguments Raise {A} e.

Global Instance result_ret : MRet Result := fun A a => Ok a.

Global Instance result_bind : MBind Result := fun A B k m =>
  match m with
  | Ok a => k a
  | Raise e => Raise e
  end.

(** ** The Python primitives the program uses *)

Module Py.

(** [a << n] *)
Definition lshift (a n : Z) : Result Z :=
  if n <? 0 then Raise ValueError else Ok (Z.shiftl a n).

(** [a >> n] *)
Definition rshift (a n : Z) : Result Z :=
  if n <? 0 then Raise ValueError else Ok (Z.shiftr a n).

(** The position a (possibly negative) index [i] denotes in a list of
    length [len], when it denotes one. *)
Definition index (len : nat) (i : Z) : Result nat :=
  let j := if i <? 0 then i + Z.of_nat len else i in
  if (j <? 0) || (Z.of_nat len <=? j) then Raise IndexError
  else Ok (Z.to_nat j).

(** [l[i]] *)
Definition getitem {A : Type} (l : list A) (i : Z) : Result A :=
  j ← index (length l) i;
  match l !! j with
  | Some a => Ok a
  | None => Raise IndexError
  end.

(** [l[i] = v] *)
Definition setitem {A : Type} (l : list A) (i : Z) (v : A) : Result (list A) :=
  j ← index (length l) i;
  Ok (<[j := v]> l).

(** [[x] * n]: the empty list when [n <= 0]. *)
Definition repeat {A : Type} (x : A) (n : Z) : list A :=
  replicate (Z.to_nat n) x.

(** [range(a, b)] *)
Definition range (a b : Z) : list Z :=
  (fun k : nat => a + Z.of_nat k) <$> seq 0 (Z.to_nat (b - a)).

(** [for i in is: acc = body(acc, i)], stopping at the first exception. *)
Fixpoint for_each {S : Type} (body : S -> Z -> Result S) (acc : S) (l : list Z)
  : Result S :=
  match l with
  | [] => Ok acc
  | i :: l' => acc' ← body acc i; for_each body acc' l'
  end.

End Py.

(** ** Fixed-point helpers *)

(** [to_signed(v, bits)]: the second shift is evaluated only when the test
    succeeds. *)
Definition to_signed (v bits : Z) : Result Z :=
  half ← Py.lshift 1 (bits - 1);
  if half <=? v then
    full ← Py.lshift 1 bits;
    Ok (v - full)
  else Ok v.

(** [to_unsigned(v, bits)] *)
Definition to_unsigned (v bits : Z) : Result Z :=
  full ← Py.lshift 1 bits;
  Ok (Z.land v (full - 1)).

(** [fp_mul_trunc(a, b, data_width, frac_bits)] *)
Definition fp_mul_trunc (a b data_width frac_bits : Z) : Result Z :=
  let product := a * b in
  shifted ← Py.rshift product frac_bits;
  u ← to_unsigned shifted data_width;
  to_signed u data_width.

(** ** The pipeline object *)

Record TaylorPolyPipeline : Type := mkPipeline {
  coeffs : list Z;
  order : Z;
  x0 : Z;
  DW : Z;
  FB : Z;
  latency : Z;
  dx_r : list Z;
  acc_r : list Z;
  vld_r : list bool
}.

(** [TaylorPolyPipeline.__init__]: stores its arguments unchecked.  It is
    given the result type of the methods so that "the constructor raises"
    can be stated at all. *)
Definition __init__ (coeffs : list Z) (order x0 data_width frac_bits : Z)
  : Result TaylorPolyPipeline :=
  Ok {| coeffs := coeffs;
        order := order;
        x0 := x0;
        DW := data_width;
        FB := frac_bits;
        latency := order + 1;
        dx_r := Py.repeat 0 (order + 1);
        acc_r := Py.repeat 0 (order + 1);
        vld_r := Py.repeat false (order + 1) |}.

(** [TaylorPolyPipeline.reset] *)
Definition reset (self : TaylorPolyPipeline) : TaylorPolyPipeline :=
  {| coeffs := self.(coeffs);
     order := self.(order);
     x0 := self.(x0);
     DW := self.(DW);
     FB := self.(FB);
     latency := self.(latency);
     dx_r := Py.repeat 0 (self.(order) + 1);
     acc_r := Py.repeat 0 (self.(order) + 1);
     vld_r := Py.repeat false (self.(order) + 1) |}.

(** The three next-state buffers [dx_next], [acc_next], [vld_next]. *)
Definition buffers : Type := (list Z * list Z * list bool)%type.

(** The body of [for i in range(1, N + 1)] in [clock]: it reads the
    registers of [self] (the previous cycle) and writes the buffers. *)
Definition clock_body (self : TaylorPolyPipeline) (nxt : buffers) (i : Z)
  : Result buffers :=
  let '(dx_next, acc_next, vld_next) := nxt in
  let DW := self.(DW) in
  let FB := self.(FB) in
  let N := self.(order) in
  d ← Py.getitem self.(dx_r) (i - 1);
  a ← Py.getitem self.(acc_r) (i - 1);
  prod_trunc ← fp_mul_trunc d a DW FB;
  coeff_k ← Py.getitem self.(coeffs) (N - i);
  u ← to_unsigned (coeff_k + prod_trunc) DW;
  acc_new ← to_signed u DW;
  d' ← Py.getitem self.(dx_r) (i - 1);
  dx_next ← Py.setitem dx_next i d';
  acc_next ← Py.setitem acc_next i acc_new;
  v ← Py.getitem self.(vld_r) (i - 1);
  vld_next ← Py.setitem vld_next i v;
  Ok (dx_next, acc_next, vld_next).

(** The commit at the end of [clock]: the three register lists are replaced
    at once. *)
Definition commit (self : TaylorPolyPipeline) (nxt : buffers) : TaylorPolyPipeline :=
  let '(dx_next, acc_next, vld_next) := nxt in
  {| coeffs := self.(coeffs);
     order := self.(order);
     x0 := self.(x0);
     DW := self.(DW);
     FB := self.(FB);
     latency := self.(latency);
     dx_r := dx_next;
     acc_r := acc_next;
     vld_r := vld_next |}.

(** [TaylorPolyPipeline.clock]: the new object and the returned pair
    [(valid_out, y_out)].  The buffers start as [[None] * (N + 1)]; every
    slot is overwritten before the commit (slot 0 directly, slots 1..N by the
    loop), so the placeholder is never read and is modelled by [0] and
    [false].  An exception leaves the object as it was: the registers are
    only assigned at the commit. *)
Definition clock (self : TaylorPolyPipeline) (valid_in : bool) (x_in : Z)
  : Result (TaylorPolyPipeline * (bool * Z)) :=
  let DW := self.(DW) in
  let N := self.(order) in
  u0 ← to_unsigned (x_in - self.(x0)) DW;
  dx_next_0 ← to_signed u0 DW;
  acc_next_0 ← Py.getitem self.(coeffs) N;
  let vld_next_0 := valid_in in
  let dx_next := Py.repeat 0 (N + 1) in
  let acc_next := Py.repeat 0 (N + 1) in
  let vld_next := Py.repeat false (N + 1) in
  dx_next ← Py.setitem dx_next 0 dx_next_0;
  acc_next ← Py.setitem acc_next 0 acc_next_0;
  vld_next ← Py.setitem vld_next 0 vld_next_0;
  nxt ← Py.for_each (clock_body self) (dx_next, acc_next, vld_next)
           (Py.range 1 (N + 1));
  let self' := commit self nxt in
  valid_out ← Py.getitem self'.(vld_r) N;
  y_out ← Py.getitem self'.(acc_r) N;
  Ok (self', (valid_out, y_out)).

(** A run of the evaluator: one [clock] call per element of [ins], as the
    loop of [run_test] drives it; the outputs are collected in order. *)
Fixpoint clocks (self : TaylorPolyPipeline) (ins : list (bool * Z))
  : Result (TaylorPolyPipeline * list (bool * Z)) :=
  match ins with
  | [] => Ok (self, [])
  | (valid_in, x_in) :: rest =>
      '(self1, out) ← clock self valid_in x_in;
      '(self2, outs) ← clocks self1 rest;
      Ok (self2, out :: outs)
  end.

(** The composition [to_signed(to_unsigned(v, bits), bits)], which the
    program writes out at each of its uses. *)
Definition wrap (v bits : Z) : Result Z :=
  u ← to_unsigned v bits;
  to_signed u bits.

(** The accumulator stage [i] latches from the values [d] and [a] of stage
    [i - 1]: lines 123 to 126 of [clock], after the two register reads. *)
Definition stage_acc (self : TaylorPolyPipeline) (d a i : Z) : Result Z :=
  prod_trunc ← fp_mul_trunc d a self.(DW) self.(FB);
  coeff_k ← Py.getitem self.(coeffs) (self.(order) - i);
  wrap (coeff_k + prod_trunc) self.(DW).

(** What a value is worth after [i] stages: Horner's rule in the
    evaluator's own arithmetic. *)
Fixpoint horner (self : TaylorPolyPipeline) (d : Z) (i : nat) : Result Z :=
  match i with
  | O => Py.getitem self.(coeffs) self.(order)
  | S i' => a ← horner self d i'; stage_acc self d a (Z.of_nat i)
  end.

(** The signed range of a [bits]-wide register. *)
Definition in_range (bits v : Z) : Prop :=
  - 2 ^ (bits - 1) <= v <= 2 ^ (bits - 1) - 1.

(** The construction contract of the evaluator, and the shape its methods
    keep: one register of each kind per stage. *)
Record wf_params (self : TaylorPolyPipeline) : Prop := {
  wf_DW : 0 < self.(DW);
  wf_FB : 0 <= self.(FB);
  wf_order : 0 <= self.(order);
  wf_coeffs : self.(order) < Z.of_nat (length self.(coeffs))
}.

Record wf_regs (self : TaylorPolyPipeline) : Prop := {
  wf_dx : length self.(dx_r) = Z.to_nat (self.(order) + 1);
  wf_acc : length self.(acc_r) = Z.to_nat (self.(order) + 1);
  wf_vld : length self.(vld_r) = Z.to_nat (self.(order) + 1)
}.

(** ** Concrete objects *)

(** The coefficients of the first test bench of [main]. *)
Definition quad_coeffs : list Z := [0; 0; 65536; 0; 0; 0; 0; 0].

(** [dut_quad] of [main], fresh from its constructor, and after one call
    [clock(True, 196608)]. *)
Definition quad_dut : TaylorPolyPipeline :=
  mkPipeline quad_coeffs 2 0 32 16 3 [0; 0; 0] [0; 0; 0] [false; false; false].

Definition quad_dut1 : TaylorPolyPipeline :=
  mkPipeline quad_coeffs 2 0 32 16 3 [196608; 0; 0] [65536; 0; 0] [true; false; false].

(** The inputs [x_quad] of [main] in Q16.16, followed by the three cycles
    that drain the pipeline. *)
Definition quad_inputs : list (bool * Z) :=
  [(true, -196608); (true, -131072); (true, -65536); (true, 0);
   (true, 65536); (true, 131072); (true, 196608);
   (false, 0); (false, 0); (false, 0)].

(** An order-1 evaluator whose constant coefficient is the largest 32-bit
    value, after [clock(True, 65536)] and after a further
    [clock(False, 0)]. *)
Definition wrap_dut1 : TaylorPolyPipeline :=
  mkPipeline [2147483647; 65536] 1 0 32 16 2
    [65536; 0] [65536; 2147483647] [true; false].

Definition wrap_dut2 : TaylorPolyPipeline :=
  mkPipeline [2147483647; 65536] 1 0 32 16 2
    [0; 65536] [65536; -2147418113] [false; true].

(** An order-0 evaluator with a fraction width no shift accepts. *)
Definition zero_dut : TaylorPolyPipeline :=
  mkPipeline [7] 0 0 32 (-1) 1 [0] [0] [false].

(** ** Vocabulary of the statements *)

(** Stage [i] of the buffers [nxt] holds what [clock] latches from stage
    [i - 1] of [self]. *)
Definition stage_latched (self : TaylorPolyPipeline) (nxt : buffers) (i : Z) : Prop :=
  exists (d a r : Z) (v : bool),
    self.(dx_r) !! Z.to_nat (i - 1) = Some d /\
    self.(acc_r) !! Z.to_nat (i - 1) = Some a /\
    self.(vld_r) !! Z.to_nat (i - 1) = Some v /\
    stage_acc self d a i = Ok r /\
    nxt.1.1 !! Z.to_nat i = Some d /\
    nxt.1.2 !! Z.to_nat i = Some r /\
    nxt.2 !! Z.to_nat i = Some v.

Definition same_lengths (b b' : buffers) : Prop :=
  length b'.1.1 = length b.1.1 /\
  length b'.1.2 = length b.1.2 /\
  length b'.2 = length b.2.

Definition same_at (b b' : buffers) (j : nat) : Prop :=
  b'.1.1 !! j = b.1.1 !! j /\
  b'.1.2 !! j = b.1.2 !! j /\
  b'.2 !! j = b.2 !! j.

Definition regs (self : TaylorPolyPipeline) : buffers :=
  (self.(dx_r), self.(acc_r), self.(vld_r)).

Definition same_params (self self' : TaylorPolyPipeline) : Prop :=
  self'.(coeffs) = self.(coeffs) /\
  self'.(order) = self.(order) /\
  self'.(x0) = self.(x0) /\
  self'.(DW) = self.(DW) /\
  self'.(FB) = self.(FB) /\
  self'.(latency) = self.(latency).

(** Everything a returning call [clock self valid_in x_in] establishes. *)
Record clock_post (self : TaylorPolyPipeline) (valid_in : bool) (x_in : Z)
    (self' : TaylorPolyPipeline) (valid_out : bool) (y_out : Z) : Prop := {
  post_params : same_params self self';
  post_order : 0 <= self.(order);
  post_regs : wf_regs self';
  post_dx0 : exists d0, wrap (x_in - self.(x0)) self.(DW) = Ok d0 /\
                        self'.(dx_r) !! 0%nat = Some d0;
  post_acc0 : exists c, self.(coeffs) !! Z.to_nat self.(order) = Some c /\
                        self'.(acc_r) !! 0%nat = Some c;
  post_vld0 : self'.(vld_r) !! 0%nat = Some valid_in;
  post_stage : forall i, 1 <= i <= self.(order) -> stage_latched self (regs self') i;
  post_vout : self'.(vld_r) !! Z.to_nat self.(order) = Some valid_out;
  post_yout : self'.(acc_r) !! Z.to_nat self.(order) = Some y_out
}.

(** [hist] lists the inputs consumed so far, the latest first.  Stage [i]
    holds the input consumed [i] calls ago: its valid flag, its delta, and
    that delta taken through [i] Horner steps. *)
Definition tracks (self : TaylorPolyPipeline) (hist : list (bool * Z)) : Prop :=
  forall (i : nat) (v : bool) (x : Z),
    Z.of_nat i <= self.(order) ->
    hist !! i = Some (v, x) ->
    exists d y,
      wrap (x - self.(x0)) self.(DW) = Ok d /\
      horner self d i = Ok y /\
      self.(vld_r) !! i = Some v /\
      self.(dx_r) !! i = Some d /\
      self.(acc_r) !! i = Some y.

(** The stages from [n] on carry no valid data. *)
Definition flushed (self : TaylorPolyPipeline) (n : nat) : Prop :=
  forall i : nat,
    (n <= i)%nat -> Z.of_nat i <= self.(order) -> self.(vld_r) !! i = Some false.

(** What the call that completes the history [hist] returns. *)
Definition returns (self : TaylorPolyPipeline) (hist : list (bool * Z))
    (out : bool * Z) : Prop :=
  match hist !! Z.to_nat self.(order) with
  | Some (v, x) =>
      out.1 = v /\
      exists d, wrap (x - self.(x0)) self.(DW) = Ok d /\
                horner self d (Z.to_nat self.(order)) = Ok out.2
  | None => out.1 = false
  end.

(** Cycles are counted in clock edges.  The input "presented on cycle [j]"
    is the argument of the call of index [j] (after [j] edges); the output
    "on cycle [k]" is what the [k]-th call returns (after [k] edges), so
    there is none on cycle 0. *)
Definition input_on_cycle (ins : list (bool * Z)) (j : nat) : option (bool * Z) :=
  ins !! j.

Definition output_on_cycle (outs : list (bool * Z)) (k : nat) : option (bool * Z) :=
  match k with
  | O => None
  | S k' => outs !! k'
  end.

(** Every register of the data path holds a signed [DW]-bit value. *)
Definition regs_in_range (self : TaylorPolyPipeline) : Prop :=
  Forall (in_range self.(DW)) self.(dx_r) /\
  Forall (in_range self.(DW)) self.(acc_r).

(** ** The rest of the program *)

(** [_factorial(n)] *)
Definition _factorial (n : Z) : Z :=
  fold_left (fun r i => r * i) (Py.range 2 (n + 1)) 1.

(** ** Polynomials, to say what the evaluator computes *)

(** The coefficient [c_k], zero beyond the list. *)
Definition coeff_at (cs : list Z) (k : nat) : Z := default 0 (cs !! k).

(** [f 0 + f 1 + ... + f (n - 1)] *)
Fixpoint sum_to (f : nat -> Z) (n : nat) : Z :=
  match n with
  | O => 0
  | S n' => sum_to f n' + f n'
  end.

(** The exact value of the polynomial of degree [n] at [d]. *)
Definition poly_value (cs : list Z) (n : nat) (d : Z) : Z :=
  sum_to (fun k => coeff_at cs k * d ^ Z.of_nat k) (S n).

(** The exact value of the polynomial whose coefficients and argument are
    fixed-point numbers of scale [s], in units of [1 / s ^ (n + 1)]: the sum
    of the [c_k * d ^ k * s ^ (n - k)].  Divided by [s ^ n] it is the value in
    units of the last place. *)
Definition poly_scaled (cs : list Z) (n : nat) (s d : Z) : Z :=
  sum_to (fun k => coeff_at cs k * d ^ Z.of_nat k * s ^ Z.of_nat (n - k)) (S n).

(** Horner's rule with the quotient by [s] rounded down after each product
    and no reduction to the register width: [i] steps from [c_n]. *)
Fixpoint horner_floor (cs : list Z) (n : nat) (s d : Z) (i : nat) : Z :=
  match i with
  | O => coeff_at cs n
  | S i' => coeff_at cs (n - i) + (d * horner_floor cs n s d i') `div` s
  end.

(** The part of the scaled polynomial the first [i] steps cover. *)
Definition horner_sum (cs : list Z) (n i : nat) (s d : Z) : Z :=
  sum_to (fun k => coeff_at cs (n - i + k) * d ^ Z.of_nat k * s ^ Z.of_nat (i - k))
         (S i).

(** ** The test runner

    [run_test] computes with floats: the inputs and the expected values are
    floats, and an output is compared as a float.  The float operations it
    uses are parameters of the model, each with the exceptions it can raise
    in Python: [int(round(r * m))] raises [OverflowError] when the int [m]
    is too large for a float or the product is infinite and [ValueError]
    when the product is not a number, and the true division of two ints
    raises [OverflowError] when the quotient is too large for a float.
    Subtraction, [abs] and comparison of floats raise nothing.  [binary64]
    below gives these operations on IEEE 754 doubles.  Everything else, the
    integer conversions, the indexing, the delay line and the counting, is
    the program's.  The tolerance [tol_lsb] is an int, as [main] passes
    it. *)
Record FloatOps : Type := mkFloatOps {
  float : Type;
  float_zero : float;                        (* [0.0] *)
  round_scaled : float -> Z -> Result Z;     (* [int(round(r * m))], [m] an int *)
  int_div : Z -> Z -> Result float;          (* [v / m], both ints *)
  abs_diff : float -> float -> float;        (* [abs(a - b)] *)
  float_le : float -> float -> bool          (* [a <= b] *)
}.

(** [real_to_fp(r, frac_bits, data_width)] *)
Definition real_to_fp (F : FloatOps) (r : float F) (frac_bits data_width : Z)
  : Result Z :=
  one ← Py.lshift 1 frac_bits;
  raw ← round_scaled F r one;
  u ← to_unsigned raw data_width;
  to_signed u data_width.

(** [fp_to_real(v, frac_bits)] *)
Definition fp_to_real (F : FloatOps) (v frac_bits : Z) : Result (float F) :=
  one ← Py.lshift 1 frac_bits;
  int_div F v one.

(** [[f(x) for x in l]], stopping at the first exception. *)
Fixpoint list_comp {A B : Type} (f : A -> Result B) (l : list A) : Result (list B) :=
  match l with
  | [] => Ok []
  | x :: l' => y ← f x; ys ← list_comp f l'; Ok (y :: ys)
  end.

(** [l[:-1]]: all but the last element, nothing of an empty list. *)
Definition slice_init {A : Type} (l : list A) : list A :=
  take (length l - 1) l.

(** One line printed by [_pass] or [_fail]: which of the two, the input
    shown in the label, and the values shown. *)
Record check (F : FloatOps) : Type := mkCheck {
  chk_pass : bool;
  chk_x : float F;
  chk_got : float F;
  chk_expected : float F;
  chk_err : float F
}.

Arguments mkCheck {F}.
Arguments chk_pass {F}.
Arguments chk_x {F}.
Arguments chk_got {F}.
Arguments chk_expected {F}.
Arguments chk_err {F}.

(** The variables the loop of [run_test] updates: the evaluator (mutated
    by [clock]), the delay line [sr], the two counters, and the lines
    printed so far. *)
Record run_state (F : FloatOps) : Type := mkRunState {
  rs_dut : TaylorPolyPipeline;
  rs_sr : list (float F);
  rs_pass : Z;
  rs_fail : Z;
  rs_log : list (check F)
}.

Arguments mkRunState {F}.
Arguments rs_dut {F}.
Arguments rs_sr {F}.
Arguments rs_pass {F}.
Arguments rs_fail {F}.
Arguments rs_log {F}.

(** The body of [for cycle in range(total_cycles)] in [run_test]. *)
Definition run_test_body (F : FloatOps) (x_values expected_reals : list (float F))
    (xfp : list Z) (tol : float F) (FBv : Z) (st : run_state F) (cycle : Z)
  : Result (run_state F) :=
  '(vin, xin, exp) ←
    (if cycle <? Z.of_nat (length x_values) then
       xin ← Py.getitem xfp cycle;
       exp ← Py.getitem expected_reals cycle;
       Ok (true, xin, exp)
     else Ok (false, 0, float_zero F));
  let sr := exp :: slice_init st.(rs_sr) in
  '(dut, (vout, yout)) ← clock st.(rs_dut) vin xin;
  if (vout : bool) then
    got ← fp_to_real F yout FBv;
    expected ← Py.getitem sr (-1);
    let err := abs_diff F got expected in
    x ← Py.getitem x_values (cycle - dut.(latency));
    if float_le F err tol then
      Ok (mkRunState dut sr (st.(rs_pass) + 1) st.(rs_fail)
            (st.(rs_log) ++ [mkCheck true x got expected err]))
    else
      Ok (mkRunState dut sr st.(rs_pass) (st.(rs_fail) + 1)
            (st.(rs_log) ++ [mkCheck false x got expected err]))
  else Ok (mkRunState dut sr st.(rs_pass) st.(rs_fail) st.(rs_log)).

(** [run_test(dut, x_values, expected_reals, label, tol_lsb)]: the
    evaluator as the run leaves it, the pair [(pass_cnt, fail_cnt)]
    returned, and the lines printed.  The label is only printed. *)
Definition run_test (F : FloatOps) (dut : TaylorPolyPipeline)
    (x_values expected_reals : list (float F)) (tol_lsb : Z)
  : Result (TaylorPolyPipeline * (Z * Z) * list (check F)) :=
  let FBv := dut.(FB) in
  scale ← Py.lshift 1 FBv;
  tol ← int_div F tol_lsb scale;
  xfp ← list_comp (fun x => real_to_fp F x FBv dut.(DW)) x_values;
  let sr := Py.repeat (float_zero F) dut.(latency) in
  let total_cycles := Z.of_nat (length x_values) + dut.(latency) in
  st ← Py.for_each (run_test_body F x_values expected_reals xfp tol FBv)
         (mkRunState dut sr 0 0 []) (Py.range 0 total_cycles);
  Ok (st.(rs_dut), (st.(rs_pass), st.(rs_fail)), st.(rs_log)).

(** *** IEEE 754 doubles

    Python's floats are binary64: 53 bits of precision, exponents up to
    1024, each operation rounded to the nearest double, ties to even.  The
    Standard Library's [SpecFloat] gives the format and its arithmetic. *)
Definition double : Type := SpecFloat.spec_float.

(** The double nearest to [m * 2 ^ e]; an infinity when that is beyond the
    format.  [double_of 3 0] is [3.0], [double_of 1 (-1)] is [0.5]. *)
Definition double_of (m e : Z) : double :=
  SpecFloat.binary_normalize 53 1024 m e false.

(** The same double with the one mantissa and exponent the format gives
    it. *)
Definition double_canon (a : double) : double :=
  match a with
  | SpecFloat.S754_finite s m e => SpecFloat.binary_round 53 1024 s m e
  | _ => a
  end.

(** [float(z)] for an int [z], as Python converts the int operand of a
    mixed operation: [OverflowError] when [z] is too large. *)
Definition double_of_int (z : Z) : Result double :=
  match double_of z 0 with
  | SpecFloat.S754_infinity _ => Raise OverflowError
  | a => Ok a
  end.

(** [int(round(a))]: the nearest int, a half going to the even neighbour;
    [OverflowError] for an infinity and [ValueError] for a nan. *)
Definition double_round (a : double) : Result Z :=
  match a with
  | SpecFloat.S754_nan => Raise ValueError
  | SpecFloat.S754_infinity _ => Raise OverflowError
  | SpecFloat.S754_zero _ => Ok 0
  | SpecFloat.S754_finite s m e =>
      let n :=
        if 0 <=? e then Z.pos m * 2 ^ e
        else
          let k := 2 ^ (- e) in
          let q := Z.pos m / k in
          match 2 * (Z.pos m `mod` k) ?= k with
          | Lt => q
          | Gt => q + 1
          | Eq => if Z.even q then q else q + 1
          end in
      Ok (if s then - n else n)
  end.

(** [n / d] for ints: the double nearest to the quotient.  The quotient is
    taken to 56 bits or more, with one more bit that records a remainder,
    and rounded once. *)
Definition double_div_int (n d : Z) : Result double :=
  if d =? 0 then Raise ZeroDivisionError
  else
    let neg := xorb (n <? 0) (d <? 0) in
    let a := Z.abs n in
    let b := Z.abs d in
    if a =? 0 then Ok (SpecFloat.S754_zero neg)
    else
      let shift := Z.max 0 (Z.log2 b + 56 - Z.log2 a) in
      let q := (a * 2 ^ shift) / b in
      let sticky := if (a * 2 ^ shift) `mod` b =? 0 then 0 else 1 in
      let mant := 2 * q + sticky in
      match double_of (if neg then - mant else mant) (- shift - 1) with
      | SpecFloat.S754_infinity _ => Raise OverflowError
      | r => Ok r
      end.

Definition binary64 : FloatOps :=
  mkFloatOps double (SpecFloat.S754_zero false)
    (fun r m => fm ← double_of_int m; double_round (SpecFloat.SFmul 53 1024 r fm))
    double_div_int
    (fun a b => SpecFloat.SFabs (SpecFloat.SFsub 53 1024 a b))
    (fun a b => SpecFloat.SFleb (double_canon a) (double_canon b)).

(** The inputs and the expected values of the first test bench of [main]:
    [x_quad] and [exp_quad], the squares, which are exact. *)
Definition x_quad : list double :=
  (fun z => double_of z 0) <$> [-3; -2; -1; 0; 1; 2; 3].

Definition exp_quad : list double :=
  (fun z => double_of z 0) <$> [9; 4; 1; 0; 1; 4; 9].

(** What a run reports: the counters and, in order, the verdict of each
    line printed. *)
Definition verdicts {F : FloatOps}
    (res : Result (TaylorPolyPipeline * (Z * Z) * list (check F)))
  : Result (Z * Z * list bool) :=
  match res with
  | Ok (_, counts, log) => Ok (counts, chk_pass <$> log)
  | Raise e => Raise e
  end.

(** The calls the runner makes: one valid input per converted value, then
    [n + 1] invalid ones to drain the pipeline. *)
Definition harness_ins (xfp : list Z) (n : nat) : list (bool * Z) :=
  ((fun xf => (true, xf)) <$> xfp) ++ replicate (S n) (false, 0).

(** The expected value the runner shifts into its delay line on cycle [t]. *)
Definition exp_at (F : FloatOps) (es : list (float F)) (L t : nat) : float F :=
  if decide (t < L)%nat then default (float_zero F) (es !! t) else float_zero F.

(** The line the runner prints for the input of index [j]: the output the
    evaluator computes for that input, converted back, against the
    [j]-th expected value; the input shown is [x_values[j - 1]]. *)
Definition is_entry (F : FloatOps) (dut : TaylorPolyPipeline)
    (xs es : list (float F)) (tol : float F) (j : nat) (chk : check F) : Prop :=
  exists (x : float F) (xf d y : Z) (got e : float F),
    xs !! j = Some x /\
    real_to_fp F x dut.(FB) dut.(DW) = Ok xf /\
    wrap (xf - dut.(x0)) dut.(DW) = Ok d /\
    horner dut d (Z.to_nat dut.(order)) = Ok y /\
    fp_to_real F y dut.(FB) = Ok got /\
    es !! j = Some e /\
    chk_got chk = got /\
    chk_expected chk = e /\
    chk_err chk = abs_diff F got e /\
    chk_pass chk = float_le F (abs_diff F got e) tol /\
    Py.getitem xs (Z.of_nat j - 1) = Ok (chk_x chk).

(** The float operations the runner performs for the input [x] raise
    nothing: [x] converts to fixed point, and the output the evaluator
    computes for it converts back. *)
Definition converts (F : FloatOps) (dut : TaylorPolyPipeline) (x : float F) : Prop :=
  exists (xf d y : Z) (got : float F),
    real_to_fp F x dut.(FB) dut.(DW) = Ok xf /\
    wrap (xf - dut.(x0)) dut.(DW) = Ok d /\
    horner dut d (Z.to_nat dut.(order)) = Ok y /\
    fp_to_real F y dut.(FB) = Ok got.

(** The state of the runner's loop before cycle [t]. *)
Definition harness_inv (F : FloatOps) (dut0 : TaylorPolyPipeline)
    (xs es : list (float F)) (xfp : list Z) (tol : float F)
    (t : nat) (st : run_state F) : Prop :=
  let n := Z.to_nat dut0.(order) in
  let L := length xs in
  (exists outs, clocks dut0 (take t (harness_ins xfp n)) = Ok (st.(rs_dut), outs)) /\
  length st.(rs_sr) = S n /\
  (forall i, (i <= n)%nat -> (i < t)%nat ->
     st.(rs_sr) !! i = Some (exp_at F es L (t - 1 - i))) /\
  length st.(rs_log) = (L `min` (t - n))%nat /\
  (forall j chk, st.(rs_log) !! j = Some chk -> is_entry F dut0 xs es tol j chk) /\
  st.(rs_pass) = Z.of_nat (length (List.filter chk_pass st.(rs_log))) /\
  st.(rs_pass) + st.(rs_fail) = Z.of_nat (length st.(rs_log)).

(** [dut_exp] of [main], fresh from its constructor, and an integer
    evaluator (no fraction bits) of order 2 on 8 bits. *)
Definition exp_coeffs : list Z := [65536; 65536; 32768; 10923; 2731; 0; 0; 0].

Definition exp_dut : TaylorPolyPipeline :=
  mkPipeline exp_coeffs 4 0 32 16 5
    [0; 0; 0; 0; 0] [0; 0; 0; 0; 0] [false; false; false; false; false].

Definition int_dut : TaylorPolyPipeline :=
  mkPipeline [1; 2; 3] 2 0 8 0 3 [0; 0; 0] [0; 0; 0] [false; false; false].

(** * Properties *)

(** ** The result monad *)

Lemma bind_Ok_inv {A B : Type} (m : Result A) (k : A -> Result B) (b : B) :
  m ≫= k = Ok b -> exists a, m = Ok a /\ k a = Ok b.
Proof. destruct m as [a|e]; simpl; [eauto | discriminate]. Qed.

Ltac inv_bind H :=
  let a := fresh "r" in
  let Ha := fresh "E" in
  apply bind_Ok_inv in H; destruct H as (a & Ha & H); cbv beta in H.

(** ** Python primitives *)

Lemma lshift_Ok (a n : Z) : 0 <= n -> Py.lshift a n = Ok (a * 2 ^ n).
Proof.
  intros Hn. unfold Py.lshift.
  destruct (Z.ltb_spec n 0); [lia|]. by rewrite Z.shiftl_mul_pow2.
Qed.

Lemma lshift_Ok_inv (a n r : Z) : Py.lshift a n = Ok r -> 0 <= n /\ r = a * 2 ^ n.
Proof.
  unfold Py.lshift. destruct (Z.ltb_spec n 0); [discriminate|].
  intros [= <-]. by rewrite Z.shiftl_mul_pow2.
Qed.

Lemma rshift_Ok (a n : Z) : 0 <= n -> Py.rshift a n = Ok (a `div` 2 ^ n).
Proof.
  intros Hn. unfold Py.rshift.
  destruct (Z.ltb_spec n 0); [lia|]. by rewrite Z.shiftr_div_pow2.
Qed.

Lemma index_nonneg (len : nat) (i : Z) :
  0 <= i ->
  Py.index len i = if Z.of_nat len <=? i then Raise IndexError else Ok (Z.to_nat i).
Proof.
  intros Hi. unfold Py.index.
  destruct (Z.ltb_spec i 0); [lia|].
  destruct (Z.ltb_spec i 0); [lia|]. reflexivity.
Qed.

Lemma getitem_Ok {A : Type} (l : list A) (i : Z) (a : A) :
  0 <= i -> (Py.getitem l i = Ok a <-> l !! Z.to_nat i = Some a).
Proof.
  intros Hi. unfold Py.getitem. rewrite index_nonneg by done.
  destruct (Z.leb_spec (Z.of_nat (length l)) i) as [Hge|Hlt]; simpl.
  - split; [discriminate|]. intros Hl. apply lookup_lt_Some in Hl. lia.
  - destruct (l !! Z.to_nat i); split; congruence.
Qed.

Lemma getitem_lookup {A : Type} (l : list A) (i : Z) :
  0 <= i ->
  Py.getitem l i = match l !! Z.to_nat i with Some a => Ok a | None => Raise IndexError end.
Proof.
  intros Hi. unfold Py.getitem. rewrite index_nonneg by done.
  destruct (Z.leb_spec (Z.of_nat (length l)) i) as [Hge|Hlt]; simpl; [|done].
  rewrite lookup_ge_None_2; [done | lia].
Qed.

Lemma setitem_Ok {A : Type} (l l' : list A) (i : Z) (v : A) :
  0 <= i ->
  (Py.setitem l i v = Ok l' <->
   (Z.to_nat i < length l)%nat /\ l' = <[Z.to_nat i := v]> l).
Proof.
  intros Hi. unfold Py.setitem. rewrite index_nonneg by done.
  destruct (Z.leb_spec (Z.of_nat (length l)) i) as [Hge|Hlt]; simpl.
  - split; [discriminate | lia].
  - split; [intros [= <-]; split; [lia | done] | by intros [_ ->]].
Qed.

Lemma range_nil (a b : Z) : b <= a -> Py.range a b = [].
Proof. intros H. unfold Py.range. by replace (Z.to_nat (b - a)) with O by lia. Qed.

Lemma range_cons (a b : Z) : a < b -> Py.range a b = a :: Py.range (a + 1) b.
Proof.
  intros H. unfold Py.range.
  replace (Z.to_nat (b - a)) with (S (Z.to_nat (b - (a + 1)))) by lia.
  simpl. f_equal; [lia|].
  rewrite <- fmap_S_seq, <- list_fmap_compose.
  apply list_fmap_ext. intros _ k _. simpl. lia.
Qed.

Lemma length_repeat {A : Type} (x : A) (n : Z) :
  length (Py.repeat x n) = Z.to_nat n.
Proof. apply length_replicate. Qed.

Lemma setitem_repeat_0 {A : Type} (x v : A) (n : Z) :
  0 <= n ->
  Py.setitem (Py.repeat x (n + 1)) 0 v = Ok (<[0%nat := v]> (Py.repeat x (n + 1))).
Proof.
  intros Hn. apply setitem_Ok; [done|]. rewrite length_repeat. split; [lia | done].
Qed.

(** ** Arithmetic of the fixed-point helpers *)

Lemma to_unsigned_Ok (v bits : Z) :
  0 <= bits -> to_unsigned v bits = Ok (v `mod` 2 ^ bits).
Proof.
  intros Hb. unfold to_unsigned. rewrite lshift_Ok by done. simpl.
  f_equal. rewrite Z.mul_1_l, <- Z.land_ones by done.
  f_equal. rewrite Z.ones_equiv. lia.
Qed.

Lemma to_signed_Ok (v bits : Z) :
  0 < bits ->
  to_signed v bits = Ok (if 2 ^ (bits - 1) <=? v then v - 2 ^ bits else v).
Proof.
  intros Hb. unfold to_signed. rewrite !lshift_Ok by lia. simpl.
  rewrite !Z.mul_1_l. by destruct (Z.leb_spec (2 ^ (bits - 1)) v).
Qed.

Lemma to_signed_Ok_inv (v bits r : Z) : to_signed v bits = Ok r -> 0 < bits.
Proof.
  unfold to_signed. intros H. inv_bind H.
  apply lshift_Ok_inv in E. lia.
Qed.

Lemma pow2_split (bits : Z) : 0 < bits -> 2 ^ bits = 2 * 2 ^ (bits - 1).
Proof.
  intros Hb. rewrite <- Z.pow_succ_r by lia. f_equal. lia.
Qed.

(** [wrap] is reduction modulo [2 ^ bits] into the signed range. *)
Lemma wrap_Ok (v bits : Z) :
  0 < bits ->
  wrap v bits = Ok ((v + 2 ^ (bits - 1)) `mod` 2 ^ bits - 2 ^ (bits - 1)).
Proof.
  intros Hb. unfold wrap. rewrite to_unsigned_Ok by lia. simpl.
  rewrite to_signed_Ok by done. f_equal.
  pose proof (pow2_split bits Hb) as Hp.
  assert (0 < 2 ^ (bits - 1)) as Hh by (apply Z.pow_pos_nonneg; lia).
  set (h := 2 ^ (bits - 1)) in *. rewrite Hp.
  pose proof (Z.mod_pos_bound v (2 * h) ltac:(lia)) as Hu.
  pose proof (Z.div_mod v (2 * h) ltac:(lia)) as Hv.
  set (u := v `mod` (2 * h)) in *. set (q := v `div` (2 * h)) in *.
  destruct (Z.leb_spec h u).
  - symmetry. rewrite Z.sub_move_r. symmetry.
    apply Z.mod_unique_pos with (q := q + 1); lia.
  - symmetry. rewrite Z.sub_move_r. symmetry.
    apply Z.mod_unique_pos with (q := q); lia.
Qed.

Lemma wrap_Ok_inv (v bits r : Z) :
  wrap v bits = Ok r ->
  0 < bits /\ r = (v + 2 ^ (bits - 1)) `mod` 2 ^ bits - 2 ^ (bits - 1).
Proof.
  intros H. assert (0 < bits) as Hb.
  { unfold wrap in H. inv_bind H. by eapply to_signed_Ok_inv. }
  split; [done|]. rewrite wrap_Ok in H by done. congruence.
Qed.

Lemma wrap_in_range (v bits r : Z) : wrap v bits = Ok r -> in_range bits r.
Proof.
  intros H. apply wrap_Ok_inv in H as [Hb ->].
  pose proof (pow2_split bits Hb) as Hp.
  assert (0 < 2 ^ (bits - 1)) as Hh by (apply Z.pow_pos_nonneg; lia).
  pose proof (Z.mod_pos_bound (v + 2 ^ (bits - 1)) (2 ^ bits) ltac:(lia)).
  unfold in_range. lia.
Qed.

Lemma wrap_congr (v bits r : Z) :
  wrap v bits = Ok r -> (r - v) `mod` 2 ^ bits = 0.
Proof.
  intros H. apply wrap_Ok_inv in H as [Hb ->].
  assert (0 < 2 ^ bits) as Hm by (apply Z.pow_pos_nonneg; lia).
  set (m := 2 ^ bits) in *. set (h := 2 ^ (bits - 1)).
  pose proof (Z.div_mod (v + h) m ltac:(lia)) as Hv.
  replace ((v + h) `mod` m - h - v) with (- ((v + h) `div` m) * m) by lia.
  apply Z.mod_mul. lia.
Qed.

Lemma wrap_id (v bits : Z) : 0 < bits -> in_range bits v -> wrap v bits = Ok v.
Proof.
  intros Hb [Hlo Hhi]. rewrite wrap_Ok by done. f_equal.
  pose proof (pow2_split bits Hb) as Hp.
  rewrite Z.mod_small; lia.
Qed.

Lemma fp_mul_trunc_wrap (a b dw fb : Z) :
  0 <= fb -> fp_mul_trunc a b dw fb = wrap ((a * b) `div` 2 ^ fb) dw.
Proof.
  intros Hfb. unfold fp_mul_trunc. by rewrite rshift_Ok by done.
Qed.

(** ** One clock edge *)

Lemma stage_acc_steps (self : TaylorPolyPipeline) (d a i p c u r : Z) :
  fp_mul_trunc d a self.(DW) self.(FB) = Ok p ->
  Py.getitem self.(coeffs) (self.(order) - i) = Ok c ->
  to_unsigned (c + p) self.(DW) = Ok u ->
  to_signed u self.(DW) = Ok r ->
  stage_acc self d a i = Ok r.
Proof.
  intros Hp Hc Hu Hr. unfold stage_acc, wrap.
  rewrite Hp; simpl. rewrite Hc; simpl. rewrite Hu; simpl. exact Hr.
Qed.

Lemma clock_body_inv (self : TaylorPolyPipeline) (b b' : buffers) (i : Z) :
  1 <= i ->
  clock_body self b i = Ok b' ->
  exists (d a r : Z) (v : bool),
    self.(dx_r) !! Z.to_nat (i - 1) = Some d /\
    self.(acc_r) !! Z.to_nat (i - 1) = Some a /\
    self.(vld_r) !! Z.to_nat (i - 1) = Some v /\
    stage_acc self d a i = Ok r /\
    (Z.to_nat i < length b.1.1)%nat /\
    (Z.to_nat i < length b.1.2)%nat /\
    (Z.to_nat i < length b.2)%nat /\
    b' = (<[Z.to_nat i := d]> b.1.1, <[Z.to_nat i := r]> b.1.2, <[Z.to_nat i := v]> b.2).
Proof.
  intros Hi H. destruct b as [[dx acc] vld]. unfold clock_body in H.
  inv_bind H. rename r into d, E into Ed.
  inv_bind H. rename r into a, E into Ea.
  inv_bind H. rename r into p, E into Ep.
  inv_bind H. rename r into c, E into Ec.
  inv_bind H. rename r into u, E into Eu.
  inv_bind H. rename E into Er.
  inv_bind H. rename r0 into d', E into Ed'.
  inv_bind H. rename r0 into dx1, E into Edx.
  inv_bind H. rename r0 into acc1, E into Eacc.
  inv_bind H. rename r0 into v, E into Ev.
  inv_bind H. rename r0 into vld1, E into Evld.
  injection H as <-.
  apply getitem_Ok in Ed, Ea, Ed', Ev; try lia.
  apply setitem_Ok in Edx as [? ->], Eacc as [? ->], Evld as [? ->]; try lia.
  assert (d' = d) as -> by congruence.
  exists d, a, r, v. simpl. repeat split; try done.
  by eapply stage_acc_steps.
Qed.

Lemma clock_body_Ok (self : TaylorPolyPipeline) (b : buffers) (i d a r : Z) (v : bool) :
  1 <= i ->
  self.(dx_r) !! Z.to_nat (i - 1) = Some d ->
  self.(acc_r) !! Z.to_nat (i - 1) = Some a ->
  self.(vld_r) !! Z.to_nat (i - 1) = Some v ->
  stage_acc self d a i = Ok r ->
  (Z.to_nat i < length b.1.1)%nat ->
  (Z.to_nat i < length b.1.2)%nat ->
  (Z.to_nat i < length b.2)%nat ->
  clock_body self b i =
    Ok (<[Z.to_nat i := d]> b.1.1, <[Z.to_nat i := r]> b.1.2, <[Z.to_nat i := v]> b.2).
Proof.
  intros Hi Hd Ha Hv Hr Hl1 Hl2 Hl3. destruct b as [[dx acc] vld]. simpl in *.
  apply getitem_Ok in Hd, Ha, Hv; try lia.
  unfold stage_acc, wrap in Hr.
  inv_bind Hr. rename r0 into p, E into Ep.
  inv_bind Hr. rename r0 into c, E into Ec.
  inv_bind Hr. rename r0 into u, E into Eu.
  unfold clock_body.
  rewrite Hd; simpl. rewrite Ha; simpl. rewrite Ep; simpl. rewrite Ec; simpl.
  rewrite Eu; simpl. rewrite Hr; simpl.
  rewrite (proj2 (setitem_Ok dx _ i d ltac:(lia)) (conj Hl1 eq_refl)); simpl.
  rewrite (proj2 (setitem_Ok acc _ i r ltac:(lia)) (conj Hl2 eq_refl)); simpl.
  rewrite Hv; simpl.
  rewrite (proj2 (setitem_Ok vld _ i v ltac:(lia)) (conj Hl3 eq_refl)); simpl.
  reflexivity.
Qed.

(** The loop writes stages [a .. b - 1] and nothing else. *)
Lemma clock_loop_inv (self : TaylorPolyPipeline) (n : nat) :
  forall (a b : Z) (bufs bufs' : buffers),
    Z.to_nat (b - a) = n ->
    1 <= a ->
    Py.for_each (clock_body self) bufs (Py.range a b) = Ok bufs' ->
    same_lengths bufs bufs' /\
    (forall j : nat, Z.of_nat j < a \/ b <= Z.of_nat j -> same_at bufs bufs' j) /\
    (forall i : Z, a <= i < b -> stage_latched self bufs' i).
Proof.
  induction n as [|n IH]; intros a b bufs bufs' Hn Ha H.
  - rewrite range_nil in H by lia. injection H as <-.
    split; [done|]. split; [done|]. intros i Hi. lia.
  - rewrite range_cons in H by lia. simpl in H. inv_bind H.
    apply clock_body_inv in E as (d & a0 & r0 & v & Hd & Ha0 & Hv & Hr & L1 & L2 & L3 & ->);
      [|lia].
    apply IH in H as (Hlen & Hout & Hin); [|lia|lia].
    destruct bufs as [[dx acc] vld], bufs' as [[dx' acc'] vld'].
    unfold same_lengths, same_at in *. simpl in *.
    rewrite !length_insert in Hlen.
    split; [done|]. split.
    + intros j Hj. destruct (Hout j ltac:(lia)) as (-> & -> & ->).
      rewrite !list_lookup_insert_ne by lia. done.
    + intros i Hi. destruct (decide (i = a)) as [->|Hne].
      * exists d, a0, r0, v. simpl.
        destruct (Hout (Z.to_nat a) ltac:(lia)) as (-> & -> & ->).
        rewrite !list_lookup_insert_eq by done. done.
      * apply Hin. lia.
Qed.

Lemma clock_loop_Ok (self : TaylorPolyPipeline) (n : nat) :
  forall (a b : Z) (bufs : buffers),
    Z.to_nat (b - a) = n ->
    1 <= a ->
    (forall i : Z, a <= i < b ->
       exists (d a r : Z) (v : bool),
         self.(dx_r) !! Z.to_nat (i - 1) = Some d /\
         self.(acc_r) !! Z.to_nat (i - 1) = Some a /\
         self.(vld_r) !! Z.to_nat (i - 1) = Some v /\
         stage_acc self d a i = Ok r) ->
    (Z.to_nat b <= length bufs.1.1)%nat ->
    (Z.to_nat b <= length bufs.1.2)%nat ->
    (Z.to_nat b <= length bufs.2)%nat ->
    exists bufs', Py.for_each (clock_body self) bufs (Py.range a b) = Ok bufs'.
Proof.
  induction n as [|n IH]; intros a b bufs Hn Ha Hst L1 L2 L3.
  - rewrite range_nil by lia. by eexists.
  - rewrite range_cons by lia. simpl.
    destruct (Hst a ltac:(lia)) as (d & a0 & r & v & Hd & Ha0 & Hv & Hr).
    rewrite (clock_body_Ok self bufs a d a0 r v) by (done || lia). simpl.
    apply IH; simpl; rewrite ?length_insert; try done; try lia.
    intros i Hi. apply Hst. lia.
Qed.

Lemma clock_inv (self self' : TaylorPolyPipeline) (valid_in valid_out : bool)
    (x_in y_out : Z) :
  clock self valid_in x_in = Ok (self', (valid_out, y_out)) ->
  clock_post self valid_in x_in self' valid_out y_out.
Proof.
  intros H. unfold clock in H.
  inv_bind H. rename r into u0, E into Eu0.
  inv_bind H. rename r into d0, E into Ed0.
  inv_bind H. rename r into c, E into Ec.
  inv_bind H. rename r into dx1, E into Edx.
  inv_bind H. rename r into acc1, E into Eacc.
  inv_bind H. rename r into vld1, E into Evld.
  inv_bind H. rename r into nxt, E into Eloop.
  inv_bind H. rename r into vo, E into Evo.
  inv_bind H. rename r into yo, E into Eyo.
  injection H as <- <- <-.
  apply setitem_Ok in Edx as [L1 ->], Eacc as [L2 ->], Evld as [L3 ->]; try lia.
  rewrite length_repeat in L1; rewrite length_repeat in L2;
    rewrite length_repeat in L3.
  assert (0 <= order self) as HN by lia.
  apply getitem_Ok in Ec; [|done].
  apply clock_loop_inv with (n := Z.to_nat (order self)) in Eloop
    as (Hlen & Hout & Hin); [|lia|lia].
  destruct nxt as [[dx' acc'] vld'].
  destruct Hlen as (Hl1 & Hl2 & Hl3). simpl in Hl1, Hl2, Hl3.
  rewrite length_insert, length_repeat in Hl1;
    rewrite length_insert, length_repeat in Hl2;
    rewrite length_insert, length_repeat in Hl3.
  destruct (Hout 0%nat ltac:(lia)) as (H1 & H2 & H3). simpl in H1, H2, H3.
  simpl in Evo, Eyo. apply getitem_Ok in Evo, Eyo; try done.
  split; simpl; try done.
  - exists d0. split.
    + unfold wrap. rewrite Eu0. exact Ed0.
    + rewrite H1. apply list_lookup_insert_eq. by rewrite length_repeat.
  - exists c. split; [done|].
    rewrite H2. apply list_lookup_insert_eq. by rewrite length_repeat.
  - rewrite H3. apply list_lookup_insert_eq. by rewrite length_repeat.
  - intros i Hi. apply Hin. lia.
Qed.

Lemma fp_mul_trunc_total (a b dw fb : Z) :
  0 < dw -> 0 <= fb -> exists p, fp_mul_trunc a b dw fb = Ok p.
Proof.
  intros Hdw Hfb. rewrite fp_mul_trunc_wrap, wrap_Ok by done. by eexists.
Qed.

Lemma stage_acc_total (self : TaylorPolyPipeline) (d a i : Z) :
  wf_params self -> 1 <= i <= self.(order) ->
  exists r, stage_acc self d a i = Ok r.
Proof.
  intros [Hdw Hfb HN Hc] Hi. unfold stage_acc.
  destruct (fp_mul_trunc_total d a _ _ Hdw Hfb) as [p ->]. simpl.
  destruct (lookup_lt_is_Some_2 self.(coeffs) (Z.to_nat (self.(order) - i)))
    as [c Hl]; [lia|].
  apply getitem_Ok in Hl; [|lia]. rewrite Hl. simpl.
  rewrite wrap_Ok by done. by eexists.
Qed.

(** The value of a stage's accumulator, in closed form. *)
Lemma stage_acc_Ok (self : TaylorPolyPipeline) (d a i c : Z) :
  0 < self.(DW) -> 0 <= self.(FB) -> 0 <= self.(order) - i ->
  self.(coeffs) !! Z.to_nat (self.(order) - i) = Some c ->
  stage_acc self d a i =
    Ok ((c + (((d * a) `div` 2 ^ self.(FB) + 2 ^ (self.(DW) - 1)) `mod` 2 ^ self.(DW)
              - 2 ^ (self.(DW) - 1))
         + 2 ^ (self.(DW) - 1)) `mod` 2 ^ self.(DW) - 2 ^ (self.(DW) - 1)).
Proof.
  intros Hdw Hfb Hi Hc. unfold stage_acc.
  rewrite fp_mul_trunc_wrap, wrap_Ok by done. simpl.
  apply getitem_Ok in Hc; [|done]. rewrite Hc. simpl.
  by rewrite wrap_Ok.
Qed.

(** [clock] returns on every object that meets the construction contract
    and has its registers in place. *)
Lemma clock_total (self : TaylorPolyPipeline) (valid_in : bool) (x_in : Z) :
  wf_params self -> wf_regs self ->
  exists self' valid_out y_out,
    clock self valid_in x_in = Ok (self', (valid_out, y_out)).
Proof.
  intros Hp [R1 R2 R3]. pose proof Hp as [Hdw Hfb HN Hc].
  unfold clock.
  pose proof (wrap_Ok (x_in - self.(x0)) _ Hdw) as Hd0.
  unfold wrap in Hd0. apply bind_Ok_inv in Hd0 as (u0 & -> & Hd0). simpl.
  rewrite Hd0. simpl.
  destruct (lookup_lt_is_Some_2 self.(coeffs) (Z.to_nat self.(order)))
    as [c Hl]; [lia|].
  apply getitem_Ok in Hl; [|lia]. rewrite Hl. simpl.
  rewrite !setitem_repeat_0 by done. simpl.
  edestruct (clock_loop_Ok self (Z.to_nat self.(order)) 1 (self.(order) + 1)) as [nxt Hloop];
    [lia | lia | | | | | ].
  5: { rewrite Hloop. simpl.
       apply clock_loop_inv with (n := Z.to_nat (order self)) in Hloop
         as ((Hl1 & Hl2 & Hl3) & _ & _); [|lia|lia].
       destruct nxt as [[dx' acc'] vld']. simpl in *.
       rewrite length_insert, length_repeat in Hl1;
    rewrite length_insert, length_repeat in Hl2;
    rewrite length_insert, length_repeat in Hl3.
       destruct (lookup_lt_is_Some_2 vld' (Z.to_nat self.(order))) as [vo Hvo]; [lia|].
       destruct (lookup_lt_is_Some_2 acc' (Z.to_nat self.(order))) as [yo Hyo]; [lia|].
       apply getitem_Ok in Hvo, Hyo; try lia. rewrite Hvo, Hyo. simpl. by eauto. }
  - intros i Hi.
    destruct (lookup_lt_is_Some_2 self.(dx_r) (Z.to_nat (i - 1))) as [d Hd]; [lia|].
    destruct (lookup_lt_is_Some_2 self.(acc_r) (Z.to_nat (i - 1))) as [a Ha]; [lia|].
    destruct (lookup_lt_is_Some_2 self.(vld_r) (Z.to_nat (i - 1))) as [v Hv]; [lia|].
    destruct (stage_acc_total self d a i Hp ltac:(lia)) as [r Hr].
    by exists d, a, r, v.
  - simpl. rewrite length_insert, length_repeat. lia.
  - simpl. rewrite length_insert, length_repeat. lia.
  - simpl. rewrite length_insert, length_repeat. lia.
Qed.

(** ** Runs *)

Lemma same_params_refl (self : TaylorPolyPipeline) : same_params self self.
Proof. by repeat split. Qed.

Lemma same_params_trans (s1 s2 s3 : TaylorPolyPipeline) :
  same_params s1 s2 -> same_params s2 s3 -> same_params s1 s3.
Proof.
  intros (? & ? & ? & ? & ? & ?) (? & ? & ? & ? & ? & ?).
  repeat split; congruence.
Qed.

Lemma same_params_reset (self : TaylorPolyPipeline) : same_params self (reset self).
Proof. by repeat split. Qed.

Lemma wf_params_same (s s' : TaylorPolyPipeline) :
  same_params s s' -> wf_params s -> wf_params s'.
Proof.
  intros (Hc & Ho & Hx & Hd & Hf & _) [H1 H2 H3 H4].
  split; rewrite ?Hc, ?Ho, ?Hd, ?Hf; done.
Qed.

Lemma wf_regs_reset (self : TaylorPolyPipeline) : wf_regs (reset self).
Proof. split; simpl; apply length_repeat. Qed.

Lemma stage_acc_same (s s' : TaylorPolyPipeline) (d a i : Z) :
  same_params s s' -> stage_acc s' d a i = stage_acc s d a i.
Proof.
  intros (Hc & Ho & Hx & Hd & Hf & _). unfold stage_acc.
  by rewrite Hc, Ho, Hd, Hf.
Qed.

Lemma horner_same (s s' : TaylorPolyPipeline) (d : Z) (i : nat) :
  same_params s s' -> horner s' d i = horner s d i.
Proof.
  intros Hs. induction i as [|i IH]; simpl.
  - destruct Hs as (Hc & Ho & _). by rewrite Hc, Ho.
  - rewrite IH. destruct (horner s d i); simpl; [|done].
    by apply stage_acc_same.
Qed.

Lemma clocks_length (ins : list (bool * Z)) :
  forall self self' outs,
    clocks self ins = Ok (self', outs) ->
    length outs = length ins /\ same_params self self'.
Proof.
  induction ins as [|[v x] rest IH]; intros self self' outs H; simpl in H.
  - injection H as <- <-. split; [done | apply same_params_refl].
  - inv_bind H. destruct r as [s1 o].
    inv_bind H. destruct r as [s2 os]. injection H as <- <-.
    destruct o as [vo yo]. apply clock_inv in E as [Hp _ _ _ _ _ _ _ _].
    apply IH in E0 as [Hl Hp']. split; [simpl; lia|].
    by eapply same_params_trans.
Qed.

(** A run returns on every object that meets the construction contract. *)
Lemma clocks_total (ins : list (bool * Z)) :
  forall self, wf_params self -> wf_regs self ->
    exists self' outs, clocks self ins = Ok (self', outs).
Proof.
  induction ins as [|[v x] rest IH]; intros self Hp Hr; simpl.
  - by eauto.
  - destruct (clock_total self v x Hp Hr) as (s1 & vo & yo & E). rewrite E. simpl.
    pose proof (clock_inv _ _ _ _ _ _ E) as [Hs _ Hr1 _ _ _ _ _ _].
    destruct (IH s1 (wf_params_same _ _ Hs Hp) Hr1) as (s2 & os & E2).
    rewrite E2. simpl. by eauto.
Qed.

Lemma tracks_nil (self : TaylorPolyPipeline) : tracks self [].
Proof. intros i v x _ H. by rewrite lookup_nil in H. Qed.

Lemma flushed_reset (self : TaylorPolyPipeline) : flushed (reset self) 0.
Proof.
  intros i _ Hi. simpl in *. unfold Py.repeat.
  apply lookup_replicate_2. lia.
Qed.

Lemma clock_tracks (self self' : TaylorPolyPipeline) (hist : list (bool * Z))
    (valid_in valid_out : bool) (x_in y_out : Z) :
  clock self valid_in x_in = Ok (self', (valid_out, y_out)) ->
  tracks self hist ->
  tracks self' ((valid_in, x_in) :: hist).
Proof.
  intros H Ht. apply clock_inv in H as [Hs HN _ Hd0 Ha0 Hv0 Hst _ _].
  pose proof Hs as (Hc & Ho & Hx & Hd & Hf & _).
  intros i v x Hi Hl. rewrite Ho in Hi. rewrite Hx, Hd.
  destruct i as [|i]; simpl in Hl.
  - injection Hl as <- <-.
    destruct Hd0 as (d0 & Hw & Hl0). destruct Ha0 as (c & Hc0 & Hl1).
    exists d0, c. repeat split; try done.
    simpl. rewrite Hc, Ho. by apply getitem_Ok.
  - destruct (Ht i v x ltac:(lia) Hl) as (d & y & Hw & Hy & L1 & L2 & L3).
    destruct (Hst (Z.of_nat (S i)) ltac:(lia)) as (d' & a' & r & v' & M1 & M2 & M3 & Hr & N1 & N2 & N3).
    replace (Z.to_nat (Z.of_nat (S i) - 1)) with i in M1, M2, M3 by lia.
    rewrite Nat2Z.id in N1, N2, N3. simpl in N1, N2, N3.
    assert (d' = d) as -> by congruence.
    assert (a' = y) as -> by congruence.
    assert (v' = v) as -> by congruence.
    exists d, r. repeat split; try done.
    rewrite (horner_same self self') by done.
    change (horner self d (S i)) with (horner self d i ≫= (fun a => stage_acc self d a (Z.of_nat (S i)))).
    by rewrite Hy.
Qed.

Lemma clock_flushed (self self' : TaylorPolyPipeline) (n : nat)
    (valid_in valid_out : bool) (x_in y_out : Z) :
  clock self valid_in x_in = Ok (self', (valid_out, y_out)) ->
  flushed self n ->
  flushed self' (S n).
Proof.
  intros H Hf. apply clock_inv in H as [Hs HN _ _ _ _ Hst _ _].
  destruct Hs as (_ & Ho & _).
  intros i Hn Hi. rewrite Ho in Hi. destruct i as [|i]; [lia|].
  destruct (Hst (Z.of_nat (S i)) ltac:(lia)) as (d' & a' & r & v' & _ & _ & M3 & _ & _ & _ & N3).
  replace (Z.to_nat (Z.of_nat (S i) - 1)) with i in M3 by lia.
  rewrite Nat2Z.id in N3. simpl in N3.
  rewrite (Hf i ltac:(lia) ltac:(lia)) in M3. congruence.
Qed.

Lemma returns_same (s s' : TaylorPolyPipeline) hist out :
  same_params s s' -> returns s' hist out -> returns s hist out.
Proof.
  intros Hs. pose proof Hs as (Hc & Ho & Hx & Hd & Hf & _).
  unfold returns. rewrite Ho, Hx, Hd.
  destruct (hist !! Z.to_nat (order s)) as [[v x]|]; [|done].
  intros (? & d & ? & Hh). rewrite (horner_same s s') in Hh by done. eauto.
Qed.

Lemma clocks_trace (ins : list (bool * Z)) :
  forall self hist self' outs,
    clocks self ins = Ok (self', outs) ->
    tracks self hist ->
    flushed self (length hist) ->
    tracks self' (reverse ins ++ hist) /\
    flushed self' (length ins + length hist) /\
    forall (k : nat) (out : bool * Z),
      outs !! k = Some out ->
      returns self (reverse (take (S k) ins) ++ hist) out.
Proof.
  induction ins as [|[v x] rest IH]; intros self hist self' outs H Ht Hf; simpl in H.
  - injection H as <- <-. split; [done|]. split; [done|].
    intros k out Hk. by rewrite lookup_nil in Hk.
  - inv_bind H. destruct r as [s1 [vo yo]].
    inv_bind H. destruct r as [s2 os]. injection H as <- <-.
    pose proof (clock_tracks _ _ _ _ _ _ _ E Ht) as Ht1.
    pose proof (clock_flushed _ _ _ _ _ _ _ E Hf) as Hf1.
    pose proof (clock_inv _ _ _ _ _ _ E) as [Hs HN _ _ _ _ _ Hvo Hyo].
    destruct (IH s1 ((v, x) :: hist) s2 os E0 Ht1 Hf1) as (Ht2 & Hf2 & Hout).
    rewrite reverse_cons, <- app_assoc. simpl in *.
    split; [done|]. split; [by rewrite <- Nat.add_succ_r|].
    intros [|k] out Hk; simpl in Hk.
    + injection Hk as <-. rewrite take_0, reverse_singleton. simpl.
      apply (returns_same self s1); [done|].
      unfold returns. destruct Hs as (_ & Ho & _). rewrite Ho.
      destruct (((v, x) :: hist) !! Z.to_nat (order self)) as [[v' x']|] eqn:Hl.
      * rewrite <- Ho in Hl.
        destruct (Ht1 (Z.to_nat (order s1)) v' x' ltac:(lia) Hl) as (d & y & Hw & Hy & L1 & L2 & L3).
        rewrite Ho in L1, L3, Hy. simpl.
        split; [congruence|]. exists d. split; [done|]. congruence.
      * apply lookup_ge_None in Hl. simpl in *.
        rewrite (Hf1 (Z.to_nat (order self))) in Hvo by lia. congruence.
    + apply Hout in Hk. rewrite reverse_cons, <- app_assoc.
      by apply (returns_same self s1).
Qed.

(** A run that starts with no valid data in flight: the call of index [k]
    returns what the call of index [k - N] consumed, taken through the [N]
    Horner steps, and nothing valid before that. *)
Lemma clocks_from_flushed (self self' : TaylorPolyPipeline)
    (ins outs : list (bool * Z)) (k : nat) (out : bool * Z) :
  clocks self ins = Ok (self', outs) ->
  flushed self 0 ->
  outs !! k = Some out ->
  let n := Z.to_nat self.(order) in
  ((k < n)%nat -> out.1 = false) /\
  ((n <= k)%nat ->
     exists x d, ins !! (k - n)%nat = Some (out.1, x) /\
                 wrap (x - self.(x0)) self.(DW) = Ok d /\
                 horner self d n = Ok out.2).
Proof.
  intros H Hf Hk n.
  pose proof (clocks_length _ _ _ _ H) as [Hlen _].
  pose proof (lookup_lt_Some _ _ _ Hk) as Hlt. rewrite Hlen in Hlt.
  destruct (clocks_trace ins self [] self' outs H (tracks_nil self) Hf)
    as (_ & _ & Hout).
  specialize (Hout k out Hk). rewrite app_nil_r in Hout.
  unfold returns in Hout. fold n in Hout.
  assert (length (take (S k) ins) = S k) as Htk by (rewrite length_take; lia).
  split.
  - intros Hn. rewrite lookup_ge_None_2 in Hout; [done|].
    rewrite length_reverse. lia.
  - intros Hn. rewrite reverse_lookup, Htk in Hout by lia.
    rewrite lookup_take_lt in Hout by lia.
    replace (S k - S n)%nat with (k - n)%nat in Hout by lia.
    destruct (ins !! (k - n)%nat) as [[v x]|] eqn:Hl.
    + destruct Hout as (<- & d & Hw & Hh). by exists x, d.
    + apply lookup_ge_None in Hl. lia.
Qed.

(** ** Consequences used by the claims *)

Lemma init_reset (coeffs : list Z) (order x0 data_width frac_bits : Z)
    (self : TaylorPolyPipeline) :
  __init__ coeffs order x0 data_width frac_bits = Ok self -> reset self = self.
Proof. intros [= <-]. reflexivity. Qed.

Lemma clocks_reset_total (self : TaylorPolyPipeline) (ins : list (bool * Z)) :
  wf_params self ->
  exists self' outs,
    clocks (reset self) ins = Ok (self', outs) /\ length outs = length ins.
Proof.
  intros Hp.
  destruct (clocks_total ins (reset self)
              (wf_params_same _ _ (same_params_reset self) Hp) (wf_regs_reset self))
    as (self' & outs & H).
  exists self', outs. split; [done|]. by apply clocks_length in H as [? _].
Qed.

(** The valid flags a run returns, from the valid flags it is given. *)
Lemma clocks_valid_out (self self' : TaylorPolyPipeline) (ins outs : list (bool * Z)) :
  clocks self ins = Ok (self', outs) ->
  flushed self 0 ->
  outs.*1 = take (length ins) (replicate (Z.to_nat self.(order)) false ++ ins.*1).
Proof.
  intros H Hf. pose proof (clocks_length _ _ _ _ H) as [Hlen _].
  set (n := Z.to_nat self.(order)).
  apply list_eq. intros k.
  rewrite list_lookup_fmap.
  destruct (decide (k < length ins)%nat) as [Hk|Hk].
  - rewrite lookup_take_lt by done.
    destruct (lookup_lt_is_Some_2 outs k ltac:(lia)) as [out Hout].
    rewrite Hout. simpl.
    destruct (clocks_from_flushed _ _ _ _ k out H Hf Hout) as [Hlo Hhi].
    fold n in Hlo, Hhi.
    destruct (decide (k < n)%nat) as [Hn|Hn].
    + rewrite lookup_app_l by (rewrite length_replicate; lia).
      rewrite lookup_replicate_2 by done. by rewrite Hlo.
    + rewrite lookup_app_r by (rewrite length_replicate; lia).
      rewrite length_replicate, list_lookup_fmap.
      destruct (Hhi ltac:(lia)) as (x & d & -> & _). done.
  - rewrite lookup_take_ge by lia.
    rewrite lookup_ge_None_2 by lia. done.
Qed.

Lemma stage_acc_in_range (self : TaylorPolyPipeline) (d a i r : Z) :
  stage_acc self d a i = Ok r -> in_range self.(DW) r.
Proof.
  unfold stage_acc. intros H. inv_bind H. inv_bind H. by eapply wrap_in_range.
Qed.

Lemma clock_in_range (self self' : TaylorPolyPipeline) (valid_in valid_out : bool)
    (x_in y_out : Z) :
  Forall (in_range self.(DW)) self.(coeffs) ->
  regs_in_range self ->
  clock self valid_in x_in = Ok (self', (valid_out, y_out)) ->
  regs_in_range self' /\ in_range self.(DW) y_out.
Proof.
  intros Hcs [Hdx Hacc] H.
  apply clock_inv in H as [Hs HN [R1 R2 _] Hd0 Ha0 _ Hst _ Hyo].
  destruct Hs as (_ & Ho & _ & Hd & _). rewrite Ho in R1, R2.
  rewrite Forall_lookup in Hcs, Hdx.
  assert (Forall (in_range (DW self)) (acc_r self')) as Hacc'.
  { apply Forall_lookup. intros [|i] y Hy.
    - destruct Ha0 as (c & Hc & Hl). assert (y = c) as -> by congruence. by eapply Hcs.
    - apply lookup_lt_Some in Hy as Hlt.
      destruct (Hst (Z.of_nat (S i))) as (d & a & r & v & _ & _ & _ & Hr & _ & N2 & _);
        [lia|].
      rewrite Nat2Z.id in N2. simpl in N2.
      assert (y = r) as -> by congruence. by eapply stage_acc_in_range. }
  split; [split|]; rewrite ?Hd; try done.
  - apply Forall_lookup. intros [|i] y Hy.
    + destruct Hd0 as (d0 & Hw & Hl). assert (y = d0) as -> by congruence.
      by eapply wrap_in_range.
    + apply lookup_lt_Some in Hy as Hlt.
      destruct (Hst (Z.of_nat (S i))) as (d & a & r & v & M1 & _ & _ & _ & N1 & _);
        [lia|].
      rewrite Nat2Z.id in N1. simpl in N1.
      assert (y = d) as -> by congruence. by eapply Hdx.
  - rewrite Forall_lookup in Hacc'. by eapply Hacc'.
Qed.

Lemma regs_in_range_reset (self : TaylorPolyPipeline) :
  0 < self.(DW) -> regs_in_range (reset self).
Proof.
  intros Hdw.
  assert (in_range self.(DW) 0) as H0.
  { assert (0 < 2 ^ (self.(DW) - 1)) by (apply Z.pow_pos_nonneg; lia).
    unfold in_range. lia. }
  split; simpl; by apply Forall_replicate.
Qed.

Lemma clocks_in_range (ins : list (bool * Z)) :
  forall self self' outs,
    Forall (in_range self.(DW)) self.(coeffs) ->
    regs_in_range self ->
    clocks self ins = Ok (self', outs) ->
    regs_in_range self' /\ Forall (fun out => in_range self.(DW) out.2) outs.
Proof.
  induction ins as [|[v x] rest IH]; intros self self' outs Hcs Hr H; simpl in H.
  - injection H as <- <-. by split.
  - inv_bind H. destruct r as [s1 [vo yo]].
    inv_bind H. destruct r as [s2 os]. injection H as <- <-.
    destruct (clock_in_range _ _ _ _ _ _ Hcs Hr E) as [Hr1 Hy].
    pose proof (clock_inv _ _ _ _ _ _ E) as [(Hc & _ & _ & Hd & _) _ _ _ _ _ _ _ _].
    rewrite <- Hc, <- Hd in Hcs.
    destruct (IH s1 s2 os Hcs Hr1 E0) as [Hr2 Hos]. rewrite Hd in Hos.
    split; [done|]. by constructor.
Qed.

(** * The claims *)

(** C1.  One call [clock(valid_in, x_in)] that returns leaves the object with
    its parameters unchanged and with: in stage 0, dx = the wrapped
    difference [x_in - x0], acc = [coeffs[N]], valid = [valid_in]; in every
    stage [i] from 1 to [N], dx and valid copied from stage [i - 1] of the
    object before the call, and acc = the wrapped sum of [coeffs[N - i]] and
    the truncated product of the dx and acc of stage [i - 1] before the
    call; the pair returned is (valid, acc) of stage [N] after the call.
    And the call does return on every object that meets the construction
    contract. *)
Theorem clock_next_state (self : TaylorPolyPipeline) (valid_in : bool) (x_in : Z) :
  (wf_params self -> wf_regs self ->
   exists res, clock self valid_in x_in = Ok res) /\
  (forall self' valid_out y_out,
     clock self valid_in x_in = Ok (self', (valid_out, y_out)) ->
     let N := self.(order) in
     same_params self self' /\
     (exists dx0, wrap (x_in - self.(x0)) self.(DW) = Ok dx0 /\
                  Py.getitem self'.(dx_r) 0 = Ok dx0) /\
     (exists c, Py.getitem self.(coeffs) N = Ok c /\
                Py.getitem self'.(acc_r) 0 = Ok c) /\
     Py.getitem self'.(vld_r) 0 = Ok valid_in /\
     (forall i, 1 <= i <= N ->
        exists d a v c p r,
          Py.getitem self.(dx_r) (i - 1) = Ok d /\
          Py.getitem self.(acc_r) (i - 1) = Ok a /\
          Py.getitem self.(vld_r) (i - 1) = Ok v /\
          Py.getitem self.(coeffs) (N - i) = Ok c /\
          fp_mul_trunc d a self.(DW) self.(FB) = Ok p /\
          wrap (c + p) self.(DW) = Ok r /\
          Py.getitem self'.(dx_r) i = Ok d /\
          Py.getitem self'.(vld_r) i = Ok v /\
          Py.getitem self'.(acc_r) i = Ok r) /\
     Py.getitem self'.(vld_r) N = Ok valid_out /\
     Py.getitem self'.(acc_r) N = Ok y_out).
Proof.
  split.
  - intros Hp Hr. destruct (clock_total self valid_in x_in Hp Hr) as (s & v & y & E).
    by eexists.
  - intros self' valid_out y_out H N.
    apply clock_inv in H as [Hs HN _ Hd0 Ha0 Hv0 Hst Hvo Hyo].
    split; [done|]. split.
    { destruct Hd0 as (d0 & Hw & Hl). exists d0. split; [done|]. by apply getitem_Ok. }
    split.
    { destruct Ha0 as (c & Hc & Hl). exists c. split; by apply getitem_Ok. }
    split; [by apply getitem_Ok|]. split.
    { intros i Hi. destruct (Hst i Hi) as (d & a & r & v & M1 & M2 & M3 & Hr & N1 & N2 & N3).
      simpl in N1, N2, N3. unfold stage_acc in Hr.
      inv_bind Hr. rename r0 into p. inv_bind Hr. rename r0 into c.
      exists d, a, v, c, p, r.
      repeat split; try done; apply getitem_Ok; (done || lia). }
    split; by apply getitem_Ok.
Qed.

(** C2.  [fp_mul_trunc(a, b, data_width, frac_bits)] is the exact product
    [a * b], shifted right arithmetically by [frac_bits] (the floor of the
    quotient by [2 ^ frac_bits]: no rounding), masked to [data_width] bits
    and read as a signed value (reduced modulo [2 ^ data_width] into the
    signed range: no saturation).  Bit [i] of the result is bit
    [i + frac_bits] of the full product.  It holds for all integers [a] and
    [b], representable or not. *)
Theorem fp_mul_trunc_exact (a b data_width frac_bits : Z) :
  0 < data_width -> 0 <= frac_bits ->
  exists r,
    fp_mul_trunc a b data_width frac_bits = Ok r /\
    wrap (Z.shiftr (a * b) frac_bits) data_width = Ok r /\
    2 ^ frac_bits * Z.shiftr (a * b) frac_bits <= a * b
      < 2 ^ frac_bits * (Z.shiftr (a * b) frac_bits + 1) /\
    in_range data_width r /\
    (r - Z.shiftr (a * b) frac_bits) `mod` 2 ^ data_width = 0 /\
    (forall i, 0 <= i < data_width ->
       Z.testbit r i = Z.testbit (a * b) (i + frac_bits)).
Proof.
  intros Hdw Hfb.
  destruct (fp_mul_trunc_total a b _ _ Hdw Hfb) as [r Hr]. exists r.
  assert (wrap (Z.shiftr (a * b) frac_bits) data_width = Ok r) as Hw.
  { rewrite <- Hr, fp_mul_trunc_wrap, Z.shiftr_div_pow2; done. }
  split; [done|]. split; [done|].
  assert (0 < 2 ^ frac_bits) as Hpf by (apply Z.pow_pos_nonneg; lia).
  assert (0 < 2 ^ data_width) as Hpd by (apply Z.pow_pos_nonneg; lia).
  split.
  { rewrite Z.shiftr_div_pow2 by done.
    pose proof (Z.div_mod (a * b) (2 ^ frac_bits) ltac:(lia)).
    pose proof (Z.mod_pos_bound (a * b) (2 ^ frac_bits) ltac:(lia)). lia. }
  split; [by eapply wrap_in_range|].
  pose proof (wrap_congr _ _ _ Hw) as Hc.
  split; [done|].
  intros i Hi. rewrite <- Z.shiftr_spec by lia.
  set (q := Z.shiftr (a * b) frac_bits) in *.
  rewrite <- (Z.mod_pow2_bits_low r data_width i) by lia.
  rewrite <- (Z.mod_pow2_bits_low q data_width i) by lia.
  f_equal.
  replace r with (q + (r - q)) by lia.
  rewrite Z.add_mod, Hc, Z.add_0_r, Z.mod_mod by lia. done.
Qed.

(** Truncation is towards minus infinity: -1/65536 becomes -1, not 0. *)
Lemma fp_mul_trunc_exact_witness :
  exists r, fp_mul_trunc (-1) 1 32 16 = Ok r /\ in_range 32 r /\
            Z.testbit r 0 = Z.testbit (-1 * 1) (0 + 16).
Proof.
  destruct (fp_mul_trunc_exact (-1) 1 32 16) as (r & H1 & _ & _ & H2 & _ & H3);
    [lia | lia |].
  exists r. split; [exact H1|]. split; [exact H2|]. apply H3. lia.
Defined.

Lemma clock_next_state_witness :
  (exists res, clock quad_dut true 196608 = Ok res) /\
  Py.getitem quad_dut1.(vld_r) 0 = Ok true /\
  Py.getitem quad_dut1.(acc_r) 2 = Ok 0.
Proof.
  destruct (clock_next_state quad_dut true 196608) as [T P].
  split.
  - apply T; split; simpl; (lia || reflexivity).
  - destruct (P quad_dut1 false 0 eq_refl) as (_ & _ & _ & Hv & _ & _ & Hy).
    split; [exact Hv | exact Hy].
Defined.

(** C3.  With cycles counted in clock edges (an input presented on cycle
    [j] is consumed by the next edge, and [clock] returns the output of the
    cycle that edge begins), a run of an order-[N] evaluator from the reset
    state returns, and its output on cycle [k] carries the valid flag of
    the input presented on cycle [k - (N + 1)], together with the value of
    that input taken through the [N] Horner steps; before cycle [N + 1] no
    output is valid.  In particular one valid input followed by [N + 1]
    invalid ones gives exactly one valid output, on cycle [N + 1]: it is
    returned by the [(N + 1)]-th call, counting the call that consumed the
    input as the first. *)
Theorem valid_follows_input (self : TaylorPolyPipeline) (ins : list (bool * Z)) :
  wf_params self ->
  let n := Z.to_nat self.(order) in
  exists self' outs,
    clocks (reset self) ins = Ok (self', outs) /\
    length outs = length ins /\
    (forall (k : nat) (v : bool) (y : Z),
       output_on_cycle outs k = Some (v, y) ->
       ((k < n + 1)%nat -> v = false) /\
       ((n + 1 <= k)%nat ->
          exists x d,
            input_on_cycle ins (k - (n + 1)) = Some (v, x) /\
            wrap (x - self.(x0)) self.(DW) = Ok d /\
            horner self d n = Ok y)) /\
    (forall (x : Z) (rest : list (bool * Z)),
       ins = (true, x) :: rest ->
       length rest = (n + 1)%nat ->
       Forall (fun p => p.1 = false) rest ->
       forall k : nat,
         (exists y, output_on_cycle outs k = Some (true, y)) <-> k = (n + 1)%nat).
Proof.
  intros Hp n.
  destruct (clocks_reset_total self ins Hp) as (self' & outs & H & Hlen).
  exists self', outs. split; [done|]. split; [done|].
  assert (forall (k : nat) (v : bool) (y : Z),
            outs !! k = Some (v, y) ->
            ((k < n)%nat -> v = false) /\
            ((n <= k)%nat ->
               exists x d, ins !! (k - n)%nat = Some (v, x) /\
                           wrap (x - self.(x0)) self.(DW) = Ok d /\
                           horner self d n = Ok y)) as Hpt.
  { intros k v y Hk.
    destruct (clocks_from_flushed _ _ _ _ k (v, y) H (flushed_reset self) Hk)
      as [Hlo Hhi]. simpl in Hlo, Hhi. fold n in Hlo, Hhi.
    split; [done|]. intros Hn. destruct (Hhi Hn) as (x & d & Hl & Hw & Hh).
    exists x, d. rewrite (horner_same self (reset self)) in Hh
      by apply same_params_reset. done. }
  split.
  - intros [|k] v y Hk; simpl in Hk; [done|].
    destruct (Hpt k v y Hk) as [Hlo Hhi]. split.
    + intros Hn. apply Hlo. lia.
    + intros Hn. destruct (Hhi ltac:(lia)) as (x & d & Hl & Hw & Hh).
      exists x, d. unfold input_on_cycle.
      replace (S k - (n + 1))%nat with (k - n)%nat by lia. done.
  - intros x rest -> Hrest Hall k. simpl in Hlen. split.
    + intros [y Hk]. destruct k as [|k]; simpl in Hk; [done|].
      destruct (Hpt k true y Hk) as [Hlo Hhi].
      destruct (decide (k < n)%nat) as [Hn|Hn]; [by specialize (Hlo Hn)|].
      destruct (Hhi ltac:(lia)) as (x' & d & Hl & _).
      destruct (k - n)%nat as [|m] eqn:Hm; [lia|].
      simpl in Hl. rewrite Forall_lookup in Hall.
      by specialize (Hall m _ Hl).
    + intros ->. replace (n + 1)%nat with (S n) by lia. simpl.
      destruct (lookup_lt_is_Some_2 outs n ltac:(lia)) as [[v y] Hk].
      destruct (Hpt n v y Hk) as [_ Hhi].
      destruct (Hhi ltac:(lia)) as (x' & d & Hl & _).
      rewrite Nat.sub_diag in Hl. simpl in Hl. injection Hl as <- <-.
      by exists y.
Qed.

Lemma valid_follows_input_witness :
  exists self' outs,
    clocks (reset quad_dut) [(true, 196608); (false, 0); (false, 0); (false, 0)]
      = Ok (self', outs) /\
    (exists y, output_on_cycle outs 3 = Some (true, y)).
Proof.
  destruct (valid_follows_input quad_dut
              [(true, 196608); (false, 0); (false, 0); (false, 0)])
    as (s & o & H & _ & _ & Hpulse); [split; simpl; lia|].
  exists s, o. split; [exact H|].
  apply (Hpulse 196608 [(false, 0); (false, 0); (false, 0)] eq_refl eq_refl).
  - repeat constructor.
  - reflexivity.
Defined.

(** C4.  The evaluator of the first test bench (order 2, x0 = 0,
    coefficients 0, 0, 65536 and whatever follows them, Q16.16 in 32 bits),
    fresh from its constructor and given the valid input 196608: the first
    two calls return an invalid output and the third returns valid with
    exactly 589824, whatever the second and third calls are given. *)
Theorem quad_three_cycles (extra : list Z) (v1 v2 : bool) (x1 x2 : Z) :
  exists dut self' y0 y1,
    __init__ (0 :: 0 :: 65536 :: extra) 2 0 32 16 = Ok dut /\
    dut.(latency) = 3 /\
    clocks dut [(true, 196608); (v1, x1); (v2, x2)]
      = Ok (self', [(false, y0); (false, y1); (true, 589824)]).
Proof.
  set (dut := mkPipeline (0 :: 0 :: 65536 :: extra) 2 0 32 16 3
                [0; 0; 0] [0; 0; 0] [false; false; false]).
  assert (wf_params dut) as Hp by (split; simpl; lia).
  assert (reset dut = dut) as Hr by reflexivity.
  destruct (clocks_reset_total dut [(true, 196608); (v1, x1); (v2, x2)] Hp)
    as (self' & outs & H & Hlen).
  pose proof (flushed_reset dut) as Hf.
  rewrite Hr in H, Hf.
  destruct outs as [|[b0 y0] [|[b1 y1] [|[b2 y2] [|? ?]]]]; try done.
  exists dut, self', y0, y1. split; [reflexivity|]. split; [reflexivity|].
  rewrite H.
  destruct (clocks_from_flushed _ _ _ _ 0 _ H Hf eq_refl) as [E0 _].
  destruct (clocks_from_flushed _ _ _ _ 1 _ H Hf eq_refl) as [E1 _].
  unfold dut in E0, E1. simpl in E0, E1.
  rewrite E0, E1 by lia.
  destruct (clocks_from_flushed _ _ _ _ 2 _ H Hf eq_refl) as [_ Hhi].
  destruct (Hhi ltac:(unfold dut; simpl; lia)) as (x & d & Hl & Hw & Hh).
  unfold dut in Hl, Hw. simpl in Hl. injection Hl as <- <-.
  vm_compute in Hw. injection Hw as <-.
  assert (horner dut 196608 2 = Ok 589824) as Hq.
  { assert (Py.getitem dut.(coeffs) dut.(order) = Ok 65536) as Hc2
      by (by apply getitem_Ok).
    cbn [horner]. rewrite Hc2.
    change (Ok 65536 ≫= (fun a => stage_acc dut 196608 a (Z.of_nat 1)))
      with (stage_acc dut 196608 65536 1).
    rewrite (stage_acc_Ok dut 196608 65536 1 0) by done.
    change (DW dut) with 32. change (FB dut) with 16.
    match goal with |- Ok ?e ≫= _ = _ =>
      let v := eval vm_compute in e in change e with v
    end.
    change (Ok 196608 ≫= (fun a => stage_acc dut 196608 a (Z.of_nat 2)))
      with (stage_acc dut 196608 196608 2).
    rewrite (stage_acc_Ok dut 196608 196608 2 0) by done.
    change (DW dut) with 32. change (FB dut) with 16.
    vm_compute. reflexivity. }
  change (horner dut 196608 2 = Ok y2) in Hh. congruence.
Qed.

(** The whole first test bench of [main]: the squares come out exactly,
    each on the third call from its input. *)
Example quad_test_bench :
  (dut ← __init__ quad_coeffs 2 0 32 16;
   '(_, outs) ← clocks dut quad_inputs;
   Ok outs)
  = Ok [(false, 0); (false, 0);
        (true, 589824); (true, 262144); (true, 65536); (true, 0);
        (true, 65536); (true, 262144); (true, 589824);
        (false, 0)].
Proof. vm_compute. reflexivity. Qed.

(** C5 as stated fails: the constructor accepts a coefficient list that is
    too short, a data width of zero and a fraction width of zero, and with
    the last the evaluator even runs. *)
Lemma init_accepts_bad_arguments :
  (exists self, __init__ [] 2 0 32 16 = Ok self) /\
  (exists self, __init__ [7] 0 0 0 16 = Ok self) /\
  (exists self self',
     __init__ [7] 0 0 32 0 = Ok self /\
     clock self true 5 = Ok (self', (true, 7))).
Proof.
  split; [by eexists|]. split; [by eexists|].
  eexists. eexists. split; reflexivity.
Qed.

(** C5, amended.  The constructor never fails and checks nothing: it
    stores its arguments and builds [order + 1] registers of each kind, all
    zero (and not valid).  A non-positive data width makes every later
    [clock] call raise [ValueError], and a coefficient list shorter than
    [order + 1] makes it raise [IndexError] (with a positive data width); a
    fraction width of zero is accepted, and [clock] then returns normally. *)
Theorem init_never_fails (cs : list Z) (N x d f : Z) :
  exists self,
    __init__ cs N x d f = Ok self /\
    (self.(coeffs) = cs /\ self.(order) = N /\ self.(x0) = x /\
     self.(DW) = d /\ self.(FB) = f /\ self.(latency) = N + 1 /\
     wf_regs self) /\
    (self.(dx_r) = replicate (Z.to_nat (N + 1)) 0 /\
     self.(acc_r) = replicate (Z.to_nat (N + 1)) 0 /\
     self.(vld_r) = replicate (Z.to_nat (N + 1)) false) /\
    (d <= 0 -> forall valid_in x_in, clock self valid_in x_in = Raise ValueError) /\
    (0 < d -> Z.of_nat (length cs) < N + 1 ->
     forall valid_in x_in, clock self valid_in x_in = Raise IndexError) /\
    (0 < d -> f = 0 -> 0 <= N < Z.of_nat (length cs) ->
     forall valid_in x_in, exists res, clock self valid_in x_in = Ok res).
Proof.
  eexists. split; [reflexivity|]. split.
  { repeat split; simpl; apply length_repeat. }
  split; [by repeat split|].
  split; [|split].
  - intros Hd valid_in x_in. unfold clock, to_unsigned, to_signed, Py.lshift. simpl.
    destruct (Z.ltb_spec d 0); simpl; [done|].
    destruct (Z.ltb_spec (d - 1) 0); simpl; [done|lia].
  - intros Hd Hlen valid_in x_in. unfold clock. simpl.
    pose proof (wrap_Ok (x_in - x) d Hd) as Hw. unfold wrap in Hw.
    apply bind_Ok_inv in Hw as (u & Hu & Hs).
    rewrite Hu. simpl. rewrite Hs. simpl.
    unfold Py.getitem. rewrite index_nonneg by lia.
    destruct (Z.leb_spec (Z.of_nat (length cs)) N); [done|lia].
  - intros Hd -> HN valid_in x_in.
    match goal with |- context [clock ?s _ _] =>
      destruct (clock_total s valid_in x_in) as (s' & v & y & E)
    end.
    + split; simpl; lia.
    + split; simpl; apply length_repeat.
    + by eexists.
Qed.

Lemma init_never_fails_witness :
  (exists self, __init__ [7] 0 0 0 16 = Ok self /\
                self.(dx_r) = [0] /\ self.(acc_r) = [0] /\ self.(vld_r) = [false] /\
                clock self true 5 = Raise ValueError) /\
  (exists self, __init__ [] 2 0 32 16 = Ok self /\
                self.(dx_r) = [0; 0; 0] /\
                clock self true 5 = Raise IndexError) /\
  (exists self res, __init__ [7; 8] 1 0 32 0 = Ok self /\
                    clock self true 5 = Ok res).
Proof.
  split; [|split].
  - destruct (init_never_fails [7] 0 0 0 16) as (s & Hi & _ & (R1 & R2 & R3) & Hv & _).
    exists s. split; [exact Hi|]. split; [exact R1|]. split; [exact R2|].
    split; [exact R3|]. apply Hv. lia.
  - destruct (init_never_fails [] 2 0 32 16) as (s & Hi & _ & (R1 & _) & _ & Hx & _).
    exists s. split; [exact Hi|]. split; [exact R1|]. apply Hx; simpl; lia.
  - destruct (init_never_fails [7; 8] 1 0 32 0) as (s & Hi & _ & _ & _ & _ & Ht).
    destruct (Ht ltac:(lia) eq_refl ltac:(simpl; lia) true 5) as [res Hr].
    exists s, res. split; [exact Hi | exact Hr].
Defined.

Example wrap_dut1_reached :
  (dut ← __init__ [2147483647; 65536] 1 0 32 16; clock dut true 65536)
  = Ok (wrap_dut1, (false, 2147483647)).
Proof. vm_compute. reflexivity. Qed.

(** The "wraparound, not saturation" scenario: an accumulator sum
    one fraction above the largest 32-bit value comes out negative. *)
Example accumulator_wraps :
  (dut ← __init__ [2147483647; 65536] 1 0 32 16;
   '(_, outs) ← clocks dut [(true, 65536); (false, 0)];
   Ok outs)
  = Ok [(false, 2147483647); (true, -2147418113)].
Proof. vm_compute. reflexivity. Qed.

(** C6.  After a call of [clock] that returns, the delta of stage 0 is
    [x_in - x0] reduced modulo [2 ^ DW] into the signed range, and the
    accumulator of each stage [i >= 1] is the sum of its coefficient and
    the truncated product reduced the same way.  That reduction leaves a
    sum in range alone and moves one that is out of range by a multiple of
    [2 ^ DW] (by exactly [2 ^ DW] when it is off by less than that): the
    result is congruent to the exact sum, never clamped to the bound. *)
Theorem clock_wraps (self self' : TaylorPolyPipeline) (valid_in valid_out : bool)
    (x_in y_out : Z) :
  clock self valid_in x_in = Ok (self', (valid_out, y_out)) ->
  let N := self.(order) in
  let m := 2 ^ self.(DW) in
  let h := 2 ^ (self.(DW) - 1) in
  let reduce := fun s : Z => (s + h) `mod` m - h in
  Py.getitem self'.(dx_r) 0 = Ok (reduce (x_in - self.(x0))) /\
  (forall i, 1 <= i <= N ->
     exists d a p c,
       Py.getitem self.(dx_r) (i - 1) = Ok d /\
       Py.getitem self.(acc_r) (i - 1) = Ok a /\
       fp_mul_trunc d a self.(DW) self.(FB) = Ok p /\
       Py.getitem self.(coeffs) (N - i) = Ok c /\
       Py.getitem self'.(acc_r) i = Ok (reduce (c + p))) /\
  (forall s : Z,
     in_range self.(DW) (reduce s) /\
     (reduce s - s) `mod` m = 0 /\
     (in_range self.(DW) s -> reduce s = s) /\
     (h <= s < h + m -> reduce s = s - m) /\
     (- h - m <= s < - h -> reduce s = s + m)).
Proof.
  intros H N m h reduce.
  apply clock_inv in H as [_ HN _ (dx0 & Hw & Hdx0) _ _ Hst _ _].
  pose proof (wrap_Ok_inv _ _ _ Hw) as [Hdw ->].
  split; [by apply getitem_Ok|]. split.
  - intros i Hi.
    destruct (Hst i Hi) as (d & a & r & v & M1 & M2 & _ & Hr & _ & N2 & _).
    simpl in N2. unfold stage_acc in Hr.
    inv_bind Hr. rename r0 into p. inv_bind Hr. rename r0 into c.
    apply wrap_Ok_inv in Hr as [_ ->].
    exists d, a, p, c. repeat split; try done; apply getitem_Ok; (done || lia).
  - intros s.
    pose proof (wrap_Ok s _ Hdw) as Hs. fold h m in Hs.
    pose proof (pow2_split _ Hdw) as Hp. fold h m in Hp.
    assert (0 < h) as Hh by (apply Z.pow_pos_nonneg; lia).
    split; [by eapply wrap_in_range|].
    split; [by apply (wrap_congr _ _ _ Hs)|].
    split; [|split].
    + intros Hr. pose proof (wrap_id s _ Hdw Hr) as Hid.
      rewrite Hs in Hid. by injection Hid.
    + intros Hr. unfold reduce. rewrite Z.sub_move_r. symmetry.
      apply Z.mod_unique_pos with (q := 1); lia.
    + intros Hr. unfold reduce. rewrite Z.sub_move_r. symmetry.
      apply Z.mod_unique_pos with (q := -1); lia.
Qed.

(** The sum 2147483647 + 65536 is stored as that sum less [2 ^ 32]. *)
Lemma clock_wraps_witness :
  Py.getitem wrap_dut2.(dx_r) 0 = Ok 0 /\
  (exists d a p c,
     fp_mul_trunc d a 32 16 = Ok p /\
     Py.getitem wrap_dut1.(coeffs) 0 = Ok c /\
     Py.getitem wrap_dut2.(acc_r) 1
       = Ok ((c + p + 2 ^ 31) `mod` 2 ^ 32 - 2 ^ 31)) /\
  (2147549183 + 2 ^ 31) `mod` 2 ^ 32 - 2 ^ 31 = 2147549183 - 2 ^ 32.
Proof.
  destruct (clock_wraps wrap_dut1 wrap_dut2 false true 0 (-2147418113) eq_refl)
    as (H1 & H2 & H3).
  split; [exact H1|]. split.
  - destruct (H2 1 ltac:(simpl; lia)) as (d & a & p & c & _ & _ & Hp & Hc & Hr).
    exists d, a, p, c. split; [exact Hp|]. split; [exact Hc | exact Hr].
  - destruct (H3 2147549183) as (_ & _ & _ & Hw & _). apply Hw. simpl. lia.
Defined.

(** C7.  [reset], called on an object in any state, leaves every valid flag
    false, and the next [order] calls of [clock] (or fewer), whatever they
    are given, all return and return an invalid output. *)
Theorem reset_discards_in_flight (self : TaylorPolyPipeline) (ins : list (bool * Z)) :
  wf_params self ->
  (length ins <= Z.to_nat self.(order))%nat ->
  (reset self).(vld_r) = replicate (Z.to_nat (self.(order) + 1)) false /\
  exists self' outs,
    clocks (reset self) ins = Ok (self', outs) /\
    length outs = length ins /\
    Forall (fun out => out.1 = false) outs.
Proof.
  intros Hp Hlen. split; [reflexivity|].
  destruct (clocks_reset_total self ins Hp) as (self' & outs & H & Hl).
  exists self', outs. split; [done|]. split; [done|].
  apply Forall_lookup. intros k out Hk.
  pose proof (lookup_lt_Some _ _ _ Hk) as Hlt.
  destruct (clocks_from_flushed _ _ _ _ k out H (flushed_reset self) Hk) as [Hlo _].
  apply Hlo. simpl. lia.
Qed.

Lemma reset_discards_in_flight_witness :
  exists self' outs,
    clocks (reset quad_dut1) [(true, 65536); (true, 131072)] = Ok (self', outs) /\
    Forall (fun out => out.1 = false) outs.
Proof.
  destruct (reset_discards_in_flight quad_dut1 [(true, 65536); (true, 131072)])
    as (_ & s & o & H & _ & Hf); [split; simpl; lia | simpl; lia |].
  exists s, o. split; [exact H | exact Hf].
Defined.

(** C8.  An evaluator constructed with order 0 has latency 1, and each
    call of [clock] on it returns the valid flag it was given together with
    [coeffs[0]], for every input; so does each call on any other object of
    order 0, whatever its registers hold (from any state).  The fraction
    width plays no part (no product is formed), nor does [x_in]. *)
Theorem order_zero_outputs_c0 :
  (forall cs x d f, exists self, __init__ cs 0 x d f = Ok self) /\
  (forall cs x d f self,
     __init__ cs 0 x d f = Ok self ->
     self.(latency) = 1 /\
     forall (c0 : Z) (valid_in : bool) (x_in : Z),
       0 < d ->
       Py.getitem cs 0 = Ok c0 ->
       exists self', clock self valid_in x_in = Ok (self', (valid_in, c0))) /\
  (forall (self : TaylorPolyPipeline) (c0 : Z) (valid_in : bool) (x_in : Z),
     self.(order) = 0 ->
     0 < self.(DW) ->
     Py.getitem self.(coeffs) 0 = Ok c0 ->
     exists self', clock self valid_in x_in = Ok (self', (valid_in, c0))).
Proof.
  assert (forall (self : TaylorPolyPipeline) (c0 : Z) (valid_in : bool) (x_in : Z),
            self.(order) = 0 -> 0 < self.(DW) ->
            Py.getitem self.(coeffs) 0 = Ok c0 ->
            exists self', clock self valid_in x_in = Ok (self', (valid_in, c0)))
    as Hany.
  { intros self c0 valid_in x_in HN Hdw Hc. unfold clock. rewrite HN, Hc.
    pose proof (wrap_Ok (x_in - self.(x0)) _ Hdw) as Hw. unfold wrap in Hw.
    apply bind_Ok_inv in Hw as (u & -> & Hw). simpl. rewrite Hw.
    eexists. reflexivity. }
  split; [by eexists|]. split; [|exact Hany].
  intros cs x d f self [= <-]. split; [reflexivity|].
  intros c0 valid_in x_in Hd Hc. by apply Hany.
Qed.

Lemma order_zero_outputs_c0_witness :
  (exists self self',
     __init__ [7] 0 0 32 16 = Ok self /\
     self.(latency) = 1 /\
     clock self true 5 = Ok (self', (true, 7))) /\
  (exists self', clock zero_dut true 5 = Ok (self', (true, 7))).
Proof.
  destruct order_zero_outputs_c0 as (Hex & Hinit & Hany).
  split.
  - destruct (Hex [7] 0 32 16) as [self Hi].
    destruct (Hinit [7] 0 32 16 self Hi) as [Hl Hc].
    destruct (Hc 7 true 5 ltac:(lia) eq_refl) as [self' Hclk].
    exists self, self'. split; [exact Hi|]. split; [exact Hl | exact Hclk].
  - apply (Hany zero_dut 7 true 5); [reflexivity | simpl; lia | reflexivity].
Defined.

(** C9.  Two evaluators of the same order, fresh from the constructor and
    given the same valid flags, return the same valid flags, whatever their
    coefficients, expansion points, widths and data inputs are, as long as
    both runs return. *)
Theorem valid_out_depends_on_valid_in (N : Z)
    (cs1 cs2 : list Z) (x1 x2 d1 d2 f1 f2 : Z)
    (dut1 dut2 self1 self2 : TaylorPolyPipeline)
    (ins1 ins2 outs1 outs2 : list (bool * Z)) :
  __init__ cs1 N x1 d1 f1 = Ok dut1 ->
  __init__ cs2 N x2 d2 f2 = Ok dut2 ->
  ins1.*1 = ins2.*1 ->
  clocks dut1 ins1 = Ok (self1, outs1) ->
  clocks dut2 ins2 = Ok (self2, outs2) ->
  outs1.*1 = outs2.*1.
Proof.
  intros I1 I2 Hins H1 H2.
  assert (flushed dut1 0) as F1.
  { rewrite <- (init_reset _ _ _ _ _ _ I1). apply flushed_reset. }
  assert (flushed dut2 0) as F2.
  { rewrite <- (init_reset _ _ _ _ _ _ I2). apply flushed_reset. }
  rewrite (clocks_valid_out _ _ _ _ H1 F1), (clocks_valid_out _ _ _ _ H2 F2).
  injection I1 as <-. injection I2 as <-. simpl.
  rewrite Hins. f_equal.
  rewrite <- (length_fmap fst ins1), <- (length_fmap fst ins2). by rewrite Hins.
Qed.

Lemma valid_out_depends_on_valid_in_witness :
  exists self1 outs1 self2 outs2,
    clocks quad_dut [(true, 196608); (false, 0); (true, 65536)] = Ok (self1, outs1) /\
    clocks (mkPipeline [1; 2; 3] 2 5 16 8 3 [0; 0; 0] [0; 0; 0] [false; false; false])
      [(true, 7); (false, 9); (true, -3)] = Ok (self2, outs2) /\
    outs1.*1 = outs2.*1.
Proof.
  eexists. eexists. eexists. eexists.
  split; [vm_compute; reflexivity|]. split; [vm_compute; reflexivity|].
  eapply (valid_out_depends_on_valid_in 2 quad_coeffs [1; 2; 3] 0 5 32 16 16 8
           quad_dut
           (mkPipeline [1; 2; 3] 2 5 16 8 3 [0; 0; 0] [0; 0; 0] [false; false; false])
           _ _
           [(true, 196608); (false, 0); (true, 65536)]
           [(true, 7); (false, 9); (true, -3)] _ _
           eq_refl eq_refl eq_refl);
    vm_compute; reflexivity.
Defined.

(** C10.  With a positive data width and every coefficient in the signed
    [DW]-bit range, every dx and acc register is in that range after
    [reset] and after each [clock] call of a run from there, whatever the
    calls are given; so is every [y_out] returned.  Such a run returns when
    the object meets the construction contract. *)
Theorem registers_stay_in_range (self : TaylorPolyPipeline) (ins : list (bool * Z)) :
  0 < self.(DW) ->
  Forall (in_range self.(DW)) self.(coeffs) ->
  regs_in_range (reset self) /\
  (forall self' outs,
     clocks (reset self) ins = Ok (self', outs) ->
     Forall (in_range self.(DW)) self'.(dx_r) /\
     Forall (in_range self.(DW)) self'.(acc_r) /\
     Forall (fun out => in_range self.(DW) out.2) outs) /\
  (wf_params self -> exists self' outs, clocks (reset self) ins = Ok (self', outs)).
Proof.
  intros Hdw Hcs. pose proof (regs_in_range_reset self Hdw) as Hr.
  split; [done|]. split.
  - intros self' outs H.
    destruct (clocks_in_range ins (reset self) self' outs Hcs Hr H) as [[H1 H2] H3].
    apply clocks_length in H as [_ (_ & _ & _ & Hd & _)]. simpl in Hd.
    rewrite Hd in H1, H2. done.
  - intros Hp. destruct (clocks_reset_total self ins Hp) as (self' & outs & H & _).
    by eauto.
Qed.

Lemma registers_stay_in_range_witness :
  regs_in_range (reset quad_dut) /\
  exists self' outs, clocks (reset quad_dut) quad_inputs = Ok (self', outs).
Proof.
  destruct (registers_stay_in_range quad_dut quad_inputs) as (Hr & _ & Ht).
  - simpl. lia.
  - repeat constructor; simpl; lia.
  - split; [exact Hr|]. apply Ht. split; simpl; lia.
Defined.

(** * Further properties of the program *)

(** ** The fixed-point helpers *)

(** X1.  [to_unsigned] raises [ValueError] for a negative width; for any
    other width it returns the one value in [0, 2 ^ bits) congruent to its
    argument, which is the argument itself when that already lies there. *)
Theorem to_unsigned_masks (v bits : Z) :
  (bits < 0 -> to_unsigned v bits = Raise ValueError) /\
  (0 <= bits ->
   exists u, to_unsigned v bits = Ok u /\
             0 <= u < 2 ^ bits /\
             (u - v) `mod` 2 ^ bits = 0 /\
             (0 <= v < 2 ^ bits -> u = v)).
Proof.
  split.
  - intros Hb. unfold to_unsigned, Py.lshift.
    by destruct (Z.ltb_spec bits 0); [|lia].
  - intros Hb. rewrite to_unsigned_Ok by done. eexists. split; [done|].
    assert (0 < 2 ^ bits) as Hm by (apply Z.pow_pos_nonneg; lia).
    split; [by apply Z.mod_pos_bound|]. split.
    + pose proof (Z.div_mod v (2 ^ bits) ltac:(lia)) as Hv.
      replace (v `mod` 2 ^ bits - v) with (- (v `div` 2 ^ bits) * 2 ^ bits) by lia.
      apply Z.mod_mul. lia.
    + intros Hv. by apply Z.mod_small.
Qed.

Lemma to_unsigned_masks_witness :
  to_unsigned 5 (-1) = Raise ValueError /\
  exists u, to_unsigned (-1) 8 = Ok u /\ 0 <= u < 2 ^ 8.
Proof.
  destruct (to_unsigned_masks 5 (-1)) as [Hr _].
  destruct (to_unsigned_masks (-1) 8) as [_ Hu].
  split; [apply Hr; lia|].
  destruct (Hu ltac:(lia)) as (u & H1 & H2 & _). by exists u.
Defined.

(** X2.  Round trip from the unsigned side: an unsigned [bits]-wide value,
    read as signed by [to_signed], lies in the signed range, and
    [to_unsigned] gives the value back. *)
Theorem to_signed_to_unsigned_roundtrip (u bits : Z) :
  0 < bits -> 0 <= u < 2 ^ bits ->
  exists s, to_signed u bits = Ok s /\
            in_range bits s /\
            to_unsigned s bits = Ok u.
Proof.
  intros Hb Hu. rewrite to_signed_Ok by done. eexists. split; [done|].
  pose proof (pow2_split bits Hb) as Hp.
  assert (0 < 2 ^ (bits - 1)) as Hh by (apply Z.pow_pos_nonneg; lia).
  rewrite to_unsigned_Ok by lia.
  destruct (Z.leb_spec (2 ^ (bits - 1)) u).
  - split; [unfold in_range; lia|]. f_equal. symmetry.
    apply Z.mod_unique_pos with (q := -1); lia.
  - split; [unfold in_range; lia|]. f_equal. apply Z.mod_small. lia.
Qed.

Lemma to_signed_to_unsigned_roundtrip_witness :
  exists s, to_signed 255 8 = Ok s /\ in_range 8 s /\ to_unsigned s 8 = Ok 255.
Proof. apply (to_signed_to_unsigned_roundtrip 255 8); lia. Defined.

(** X3.  [to_signed] reinterprets, it does not reduce: its result is
    always congruent to its argument modulo [2 ^ bits], but lies in the
    signed range only for arguments from [- 2 ^ (bits - 1)] up to (not
    including) [2 ^ bits + 2 ^ (bits - 1)]; a caller has to mask first. *)
Theorem to_signed_needs_mask (v bits s : Z) :
  to_signed v bits = Ok s ->
  (s - v) `mod` 2 ^ bits = 0 /\
  (in_range bits s <-> - 2 ^ (bits - 1) <= v < 2 ^ bits + 2 ^ (bits - 1)).
Proof.
  intros H. pose proof (to_signed_Ok_inv _ _ _ H) as Hb.
  rewrite to_signed_Ok in H by done. injection H as <-.
  pose proof (pow2_split bits Hb) as Hp.
  assert (0 < 2 ^ (bits - 1)) as Hh by (apply Z.pow_pos_nonneg; lia).
  unfold in_range. destruct (Z.leb_spec (2 ^ (bits - 1)) v).
  - split; [|lia].
    replace (v - 2 ^ bits - v) with (-1 * 2 ^ bits) by lia.
    apply Z.mod_mul. lia.
  - split; [|lia]. rewrite Z.sub_diag. apply Z.mod_0_l. lia.
Qed.

Lemma to_signed_needs_mask_witness :
  to_signed 1000 8 = Ok 744 /\ ~ in_range 8 744 /\ (744 - 1000) `mod` 2 ^ 8 = 0.
Proof.
  destruct (to_signed_needs_mask 1000 8 744 eq_refl) as [Hc Hr].
  split; [reflexivity|]. split; [|exact Hc].
  intros Hin. apply Hr in Hin. simpl in Hin. lia.
Defined.

(** X4.  Round trip from the signed side: masking and reading back as
    signed returns exactly the values of the signed range unchanged, and
    doing it twice is the same as doing it once. *)
Theorem wrap_fixes_signed_range (v bits : Z) :
  0 < bits ->
  (wrap v bits = Ok v <-> in_range bits v) /\
  (forall r, wrap v bits = Ok r -> wrap r bits = Ok r).
Proof.
  intros Hb. split; [split|].
  - apply wrap_in_range.
  - by apply wrap_id.
  - intros r Hr. apply wrap_id; [done|]. by eapply wrap_in_range.
Qed.

Lemma wrap_fixes_signed_range_witness :
  wrap (-128) 8 = Ok (-128) /\ wrap 128 8 <> Ok 128.
Proof.
  destruct (wrap_fixes_signed_range (-128) 8 ltac:(lia)) as [[_ Hin] _].
  destruct (wrap_fixes_signed_range 128 8 ltac:(lia)) as [[Hout _] _].
  split.
  - apply Hin. unfold in_range. simpl. lia.
  - intros H. apply Hout in H. unfold in_range in H. simpl in H. lia.
Defined.

(** X5.  [fp_mul_trunc] raises [ValueError] when the fraction width is
    negative or the data width is not positive, and in every other case
    returns a value of the signed range: it raises nothing else. *)
Theorem fp_mul_trunc_outcome (a b data_width frac_bits : Z) :
  (frac_bits < 0 \/ data_width <= 0 ->
   fp_mul_trunc a b data_width frac_bits = Raise ValueError) /\
  (0 <= frac_bits -> 0 < data_width ->
   exists r, fp_mul_trunc a b data_width frac_bits = Ok r /\ in_range data_width r).
Proof.
  split.
  - intros H. unfold fp_mul_trunc, Py.rshift.
    destruct (Z.ltb_spec frac_bits 0); [done|]. simpl.
    unfold to_unsigned, to_signed, Py.lshift.
    destruct (Z.ltb_spec data_width 0); [done|]. simpl.
    by destruct (Z.ltb_spec (data_width - 1) 0); [|lia].
  - intros Hf Hd. destruct (fp_mul_trunc_total a b _ _ Hd Hf) as [r Hr].
    exists r. split; [done|].
    rewrite fp_mul_trunc_wrap in Hr by done. by eapply wrap_in_range.
Qed.

Lemma fp_mul_trunc_outcome_witness :
  fp_mul_trunc 3 4 32 (-1) = Raise ValueError /\
  fp_mul_trunc 3 4 0 16 = Raise ValueError /\
  exists r, fp_mul_trunc 65536 65536 32 16 = Ok r /\ in_range 32 r.
Proof.
  split; [|split].
  - apply (fp_mul_trunc_outcome 3 4 32 (-1)). left. lia.
  - apply (fp_mul_trunc_outcome 3 4 0 16). right. lia.
  - apply (fp_mul_trunc_outcome 65536 65536 32 16); lia.
Defined.

(** X6.  The fixed-point one, [2 ^ frac_bits], is a unit of [fp_mul_trunc]
    on the signed range, on either side, and zero absorbs. *)
Theorem fp_mul_trunc_unit (a data_width frac_bits : Z) :
  0 < data_width -> 0 <= frac_bits -> in_range data_width a ->
  fp_mul_trunc a (2 ^ frac_bits) data_width frac_bits = Ok a /\
  fp_mul_trunc (2 ^ frac_bits) a data_width frac_bits = Ok a /\
  fp_mul_trunc a 0 data_width frac_bits = Ok 0 /\
  fp_mul_trunc 0 a data_width frac_bits = Ok 0.
Proof.
  intros Hd Hf Ha.
  assert (0 < 2 ^ frac_bits) as Hs by (apply Z.pow_pos_nonneg; lia).
  assert (in_range data_width 0) as H0.
  { assert (0 < 2 ^ (data_width - 1)) by (apply Z.pow_pos_nonneg; lia).
    unfold in_range. lia. }
  rewrite !fp_mul_trunc_wrap by done.
  rewrite Z.div_mul by lia.
  rewrite (Z.mul_comm (2 ^ frac_bits) a), Z.div_mul by lia.
  rewrite Z.mul_0_r, Z.mul_0_l, Z.div_0_l by lia.
  rewrite !wrap_id by done. done.
Qed.

Lemma fp_mul_trunc_unit_witness :
  fp_mul_trunc (-196608) (2 ^ 16) 32 16 = Ok (-196608) /\
  fp_mul_trunc (-196608) 0 32 16 = Ok 0.
Proof.
  destruct (fp_mul_trunc_unit (-196608) 32 16) as (H1 & _ & H3 & _);
    [lia | lia | unfold in_range; simpl; lia |].
  split; [exact H1 | exact H3].
Defined.

(** X7.  Truncation is towards minus infinity, not towards zero: when
    neither quotient overflows, negating a factor negates the result only
    if the product is a multiple of [2 ^ frac_bits], and otherwise gives
    one less than the negated result. *)
Theorem fp_mul_trunc_negation (a b data_width frac_bits r r' : Z) :
  0 <= frac_bits ->
  in_range data_width ((a * b) `div` 2 ^ frac_bits) ->
  in_range data_width ((- a * b) `div` 2 ^ frac_bits) ->
  fp_mul_trunc a b data_width frac_bits = Ok r ->
  fp_mul_trunc (- a) b data_width frac_bits = Ok r' ->
  r' = if (a * b) `mod` 2 ^ frac_bits =? 0 then - r else - r - 1.
Proof.
  intros Hf Hq Hq' Hr Hr'.
  rewrite fp_mul_trunc_wrap in Hr, Hr' by done.
  pose proof (wrap_Ok_inv _ _ _ Hr) as [Hd _].
  rewrite wrap_id in Hr, Hr' by done.
  injection Hr as <-. injection Hr' as <-.
  assert (0 < 2 ^ frac_bits) as Hs by (apply Z.pow_pos_nonneg; lia).
  set (s := 2 ^ frac_bits) in *. set (p := a * b).
  replace (- a * b) with (- p) by (unfold p; lia).
  pose proof (Z.div_mod p s ltac:(lia)) as Hp.
  pose proof (Z.mod_pos_bound p s ltac:(lia)) as Hb.
  destruct (Z.eqb_spec (p `mod` s) 0) as [E|E].
  - symmetry. apply Z.div_unique with (r := 0); lia.
  - symmetry. apply Z.div_unique with (r := s - p `mod` s); lia.
Qed.

Lemma fp_mul_trunc_negation_witness :
  fp_mul_trunc 1 1 32 16 = Ok 0 /\
  fp_mul_trunc (-1) 1 32 16 = Ok (-1) /\
  -1 = (if (1 * 1) `mod` 2 ^ 16 =? 0 then - 0 else - 0 - 1).
Proof.
  assert (fp_mul_trunc 1 1 32 16 = Ok 0) as H1 by reflexivity.
  assert (fp_mul_trunc (-1) 1 32 16 = Ok (-1)) as H2 by reflexivity.
  split; [exact H1|]. split; [exact H2|].
  apply (fp_mul_trunc_negation 1 1 32 16 0 (-1)); [lia | | | exact H1 | exact H2];
    unfold in_range; split; vm_compute; discriminate.
Defined.

(** ** The evaluator *)

Lemma getitem_raises {A : Type} (l : list A) (i : Z) (e : PyExn) :
  Py.getitem l i = Raise e -> e = IndexError.
Proof.
  unfold Py.getitem, Py.index.
  destruct (_ || _); simpl; [congruence|].
  destruct (l !! _); congruence.
Qed.

Lemma setitem_repeat_empty {A : Type} (x v : A) (n : Z) :
  n <= 0 -> Py.setitem (Py.repeat x n) 0 v = Raise IndexError.
Proof.
  intros Hn. unfold Py.repeat. by replace (Z.to_nat n) with O by lia.
Qed.

Lemma fp_mul_trunc_neg_frac (a b dw fb : Z) :
  fb < 0 -> fp_mul_trunc a b dw fb = Raise ValueError.
Proof.
  intros Hf. unfold fp_mul_trunc, Py.rshift. by destruct (Z.ltb_spec fb 0); [|lia].
Qed.

Lemma clock_bad_width (self : TaylorPolyPipeline) (valid_in : bool) (x_in : Z) :
  self.(DW) <= 0 -> clock self valid_in x_in = Raise ValueError.
Proof.
  intros Hd. unfold clock, to_unsigned, to_signed, Py.lshift.
  destruct (Z.ltb_spec (DW self) 0); simpl; [done|].
  by destruct (Z.ltb_spec (DW self - 1) 0); [|lia].
Qed.

(** The first two steps of [clock], for a positive data width. *)
Lemma clock_after_wrap (self : TaylorPolyPipeline) (x_in : Z) :
  0 < self.(DW) ->
  exists u d, to_unsigned (x_in - self.(x0)) self.(DW) = Ok u /\
              to_signed u self.(DW) = Ok d.
Proof.
  intros Hd. pose proof (wrap_Ok (x_in - self.(x0)) _ Hd) as Hw.
  unfold wrap in Hw. apply bind_Ok_inv in Hw as (u & Hu & Hs). eauto.
Qed.

Lemma clock_order_zero (self : TaylorPolyPipeline) (valid_in : bool) (x_in : Z) :
  0 < self.(DW) -> self.(order) = 0 -> (0 < length self.(coeffs))%nat ->
  exists res, clock self valid_in x_in = Ok res.
Proof.
  intros Hd HN Hl. destruct (clock_after_wrap self x_in Hd) as (u & d & Hu & Hs).
  destruct (lookup_lt_is_Some_2 self.(coeffs) 0 Hl) as [c Hc].
  apply (getitem_Ok _ 0) in Hc; [|done].
  unfold clock. rewrite HN, Hu. simpl. rewrite Hs. simpl. rewrite Hc.
  eexists. reflexivity.
Qed.

(** X8.  What a call of [clock] does on an object whose registers are in
    place, by its parameters alone: [ValueError] for a data width that is
    not positive; otherwise [IndexError] for an order that is negative
    (even when [coeffs[order]] exists, counted from the end) or not below
    the number of coefficients; otherwise [ValueError] for a negative
    fraction width, unless the order is 0 and no product is formed;
    otherwise it returns. *)
Theorem clock_outcome (self : TaylorPolyPipeline) (valid_in : bool) (x_in : Z) :
  let len := Z.of_nat (length self.(coeffs)) in
  (self.(DW) <= 0 -> clock self valid_in x_in = Raise ValueError) /\
  (0 < self.(DW) -> self.(order) < 0 \/ len <= self.(order) ->
   clock self valid_in x_in = Raise IndexError) /\
  (0 < self.(DW) -> 1 <= self.(order) < len -> self.(FB) < 0 -> wf_regs self ->
   clock self valid_in x_in = Raise ValueError) /\
  (0 < self.(DW) -> 0 <= self.(order) < len ->
   (1 <= self.(order) -> 0 <= self.(FB)) -> wf_regs self ->
   exists res, clock self valid_in x_in = Ok res).
Proof.
  intros len. split; [apply clock_bad_width|]. split; [|split].
  - intros Hd HN. destruct (clock_after_wrap self x_in Hd) as (u & d & Hu & Hs).
    unfold clock. rewrite Hu. simpl. rewrite Hs. simpl.
    destruct HN as [HN|HN].
    + destruct (Py.getitem self.(coeffs) self.(order)) as [c|e] eqn:Hc; simpl.
      * rewrite (setitem_repeat_empty 0 d) by lia. reflexivity.
      * rewrite (getitem_raises _ _ _ Hc). reflexivity.
    + unfold Py.getitem. rewrite index_nonneg by lia.
      by destruct (Z.leb_spec (Z.of_nat (length self.(coeffs))) self.(order));
        [|unfold len in HN; lia].
  - intros Hd HN Hf [R1 R2 R3].
    destruct (clock_after_wrap self x_in Hd) as (u & d & Hu & Hs).
    destruct (lookup_lt_is_Some_2 self.(coeffs) (Z.to_nat self.(order))) as [c Hc];
      [unfold len in HN; lia|].
    apply getitem_Ok in Hc; [|lia].
    destruct (lookup_lt_is_Some_2 self.(dx_r) 0) as [d0 Hd0]; [lia|].
    destruct (lookup_lt_is_Some_2 self.(acc_r) 0) as [a0 Ha0]; [lia|].
    apply (getitem_Ok _ 0) in Hd0, Ha0; try done.
    unfold clock. rewrite Hu. simpl. rewrite Hs. simpl. rewrite Hc. simpl.
    rewrite !setitem_repeat_0 by lia. simpl.
    rewrite range_cons by lia. simpl.
    unfold clock_body at 1. simpl. change (1 - 1) with 0.
    rewrite Hd0. simpl. rewrite Ha0. simpl.
    rewrite fp_mul_trunc_neg_frac by done. reflexivity.
  - intros Hd HN Hf Hr. destruct (decide (self.(order) = 0)) as [H0|H0].
    + apply clock_order_zero; [done | done | unfold len in HN; lia].
    + destruct (clock_total self valid_in x_in) as (s & v & y & E); [|done|by eauto].
      split; [done | lia | lia | unfold len in HN; lia].
Qed.

Lemma clock_outcome_witness :
  clock (mkPipeline [7; 8] (-1) 0 32 16 0 [] [] []) true 5 = Raise IndexError /\
  clock (mkPipeline [7; 8] 1 0 32 (-1) 2 [0; 0] [0; 0] [false; false]) true 5
    = Raise ValueError /\
  (exists res, clock zero_dut true 5 = Ok res).
Proof.
  split; [|split].
  - apply (clock_outcome (mkPipeline [7; 8] (-1) 0 32 16 0 [] [] []) true 5);
      simpl; lia.
  - apply (clock_outcome
             (mkPipeline [7; 8] 1 0 32 (-1) 2 [0; 0] [0; 0] [false; false]) true 5);
      [simpl; lia | simpl; lia | simpl; lia | split; reflexivity].
  - apply (clock_outcome zero_dut true 5);
      [simpl; lia | simpl; lia | simpl; lia | split; reflexivity].
Defined.

(** X9.  A run that returns leaves the parameters of the object as they
    were and returns one output per input; if it made at least one call,
    each of the three register lists has exactly [order + 1] entries at the
    end, whatever their lengths were at the start. *)
Theorem clocks_keep_shape (self self' : TaylorPolyPipeline)
    (ins outs : list (bool * Z)) :
  clocks self ins = Ok (self', outs) ->
  same_params self self' /\
  length outs = length ins /\
  (ins <> [] -> wf_regs self').
Proof.
  intros H. pose proof (clocks_length _ _ _ _ H) as [Hl Hp].
  split; [done|]. split; [done|]. clear Hl Hp.
  revert self outs H. induction ins as [|[v x] rest IH]; intros self outs H Hne; [done|].
  simpl in H. inv_bind H. destruct r as [s1 [vo yo]].
  inv_bind H. destruct r as [s2 os]. injection H as <- <-.
  pose proof (clock_inv _ _ _ _ _ _ E) as [_ _ Hr _ _ _ _ _ _].
  destruct rest as [|i rest'].
  - simpl in E0. by injection E0 as <- <-.
  - by apply (IH s1 os E0).
Qed.

Lemma clocks_keep_shape_witness :
  wf_regs (mkPipeline [7; 8] 1 0 32 16 2 [5; 1] [8; 7] [true; true]) /\
  ~ wf_regs (mkPipeline [7; 8] 1 0 32 16 2 [1; 2; 3; 4] [5; 6; 7] [true]).
Proof.
  split.
  - apply (clocks_keep_shape
             (mkPipeline [7; 8] 1 0 32 16 2 [1; 2; 3; 4] [5; 6; 7] [true])
             (mkPipeline [7; 8] 1 0 32 16 2 [5; 1] [8; 7] [true; true])
             [(true, 5)] [(true, 7)]); [reflexivity | discriminate].
  - intros [H _ _]. simpl in H. discriminate.
Defined.

(** X10.  [reset] undoes a run: called on the object a constructor call
    built, after any returning run of [clock] calls, it puts the object
    back exactly as the constructor left it. *)
Theorem reset_restores_constructed (cs : list Z) (N x d f : Z)
    (dut self' : TaylorPolyPipeline) (ins outs : list (bool * Z)) :
  __init__ cs N x d f = Ok dut ->
  clocks dut ins = Ok (self', outs) ->
  reset self' = dut.
Proof.
  intros Hi H. apply clocks_length in H as [_ (Hc & Ho & Hx & Hd & Hf & Hl)].
  injection Hi as <-. simpl in *. unfold reset.
  by rewrite Hc, Ho, Hx, Hd, Hf, Hl.
Qed.

Lemma reset_restores_constructed_witness : reset quad_dut1 = quad_dut.
Proof.
  apply (reset_restores_constructed quad_coeffs 2 0 32 16 quad_dut quad_dut1
           [(true, 196608)] [(false, 0)]); reflexivity.
Defined.

(** ** [_factorial] *)

Lemma range_snoc (a b : Z) : a <= b -> Py.range a (b + 1) = Py.range a b ++ [b].
Proof.
  intros H. unfold Py.range.
  replace (Z.to_nat (b + 1 - a)) with (S (Z.to_nat (b - a))) by lia.
  rewrite seq_S, fmap_app. simpl. do 2 f_equal. lia.
Qed.

Lemma factorial_step (n : Z) : 1 <= n -> _factorial (n + 1) = _factorial n * (n + 1).
Proof.
  intros H. unfold _factorial. rewrite (range_snoc 2 (n + 1)) by lia.
  by rewrite fold_left_app.
Qed.

Lemma factorial_of_nat (k : nat) : _factorial (Z.of_nat k) = Z.of_nat (fact k).
Proof.
  induction k as [|k IH]; [reflexivity|].
  destruct k as [|k]; [reflexivity|].
  rewrite (Nat2Z.inj_succ (S k)), <- Z.add_1_r, factorial_step by lia.
  rewrite IH. change (fact (S (S k))) with (S (S k) * fact (S k))%nat. lia.
Qed.

(** X11.  [_factorial(n)] is [n!] for [n >= 0], and 1 for every [n <= 1],
    negative arguments included: the loop body does not run. *)
Theorem factorial_correct (n : Z) :
  (0 <= n -> _factorial n = Z.of_nat (fact (Z.to_nat n))) /\
  (n <= 1 -> _factorial n = 1).
Proof.
  split.
  - intros Hn. rewrite <- (Z2Nat.id n) at 1 by done. apply factorial_of_nat.
  - intros Hn. unfold _factorial. by rewrite range_nil by lia.
Qed.

Lemma factorial_correct_witness : _factorial 4 = 24 /\ _factorial (-3) = 1.
Proof.
  destruct (factorial_correct 4) as [H4 _].
  destruct (factorial_correct (-3)) as [_ Hm].
  split; [exact (H4 ltac:(lia)) | apply Hm; lia].
Defined.

(** ** What the evaluator computes *)

Lemma sum_to_ext (f g : nat -> Z) (n : nat) :
  (forall k, (k < n)%nat -> f k = g k) -> sum_to f n = sum_to g n.
Proof.
  induction n as [|n IH]; intros H; simpl; [done|].
  rewrite IH by (intros k Hk; apply H; lia). by rewrite H by lia.
Qed.

Lemma sum_to_shift (f : nat -> Z) (n : nat) :
  sum_to f (S n) = f O + sum_to (fun k => f (S k)) n.
Proof.
  induction n as [|n IH]; [simpl; lia|].
  change (sum_to f (S (S n))) with (sum_to f (S n) + f (S n)).
  rewrite IH. simpl. lia.
Qed.

Lemma sum_to_scale (c : Z) (f : nat -> Z) (n : nat) :
  sum_to (fun k => c * f k) n = c * sum_to f n.
Proof. induction n as [|n IH]; simpl; [lia|]. rewrite IH. lia. Qed.

Lemma horner_sum_0 (cs : list Z) (n : nat) (s d : Z) :
  horner_sum cs n 0 s d = coeff_at cs n.
Proof.
  unfold horner_sum. simpl. rewrite Nat.sub_0_r, Nat.add_0_r. lia.
Qed.

Lemma horner_sum_S (cs : list Z) (n i : nat) (s d : Z) :
  (S i <= n)%nat ->
  horner_sum cs n (S i) s d
  = coeff_at cs (n - S i) * s ^ Z.of_nat (S i) + d * horner_sum cs n i s d.
Proof.
  intros Hi. unfold horner_sum. rewrite sum_to_shift.
  rewrite Nat.add_0_r, Nat.sub_0_r. change (d ^ Z.of_nat 0) with 1.
  rewrite Z.mul_1_r. f_equal.
  rewrite <- sum_to_scale. apply sum_to_ext. intros k Hk.
  replace (n - S i + S k)%nat with (n - i + k)%nat by lia.
  replace (S i - S k)%nat with (i - k)%nat by lia.
  rewrite Nat2Z.inj_succ, Z.pow_succ_r by lia. lia.
Qed.

Lemma horner_sum_full (cs : list Z) (n : nat) (s d : Z) :
  horner_sum cs n n s d = poly_scaled cs n s d.
Proof.
  unfold horner_sum, poly_scaled. apply sum_to_ext. intros k Hk.
  by rewrite Nat.sub_diag.
Qed.

Lemma poly_scaled_1 (cs : list Z) (n : nat) (d : Z) :
  poly_scaled cs n 1 d = poly_value cs n d.
Proof.
  unfold poly_scaled, poly_value. apply sum_to_ext. intros k Hk.
  rewrite Z.pow_1_l by lia. lia.
Qed.

Lemma getitem_coeff_at (self : TaylorPolyPipeline) (i : nat) :
  wf_params self -> (i <= Z.to_nat self.(order))%nat ->
  Py.getitem self.(coeffs) (self.(order) - Z.of_nat i)
  = Ok (coeff_at self.(coeffs) (Z.to_nat self.(order) - i)).
Proof.
  intros [_ _ HN Hc] Hi. rewrite getitem_lookup by lia.
  replace (Z.to_nat (order self - Z.of_nat i)) with (Z.to_nat (order self) - i)%nat
    by lia.
  unfold coeff_at.
  destruct (lookup_lt_is_Some_2 self.(coeffs) (Z.to_nat (order self) - i))
    as [c ->]; [lia|]. done.
Qed.

(** One step of [horner], in closed form. *)
Lemma horner_S (self : TaylorPolyPipeline) (d a : Z) (i : nat) :
  wf_params self -> (S i <= Z.to_nat self.(order))%nat ->
  horner self d i = Ok a ->
  let h := 2 ^ (self.(DW) - 1) in
  let m := 2 ^ self.(DW) in
  let c := coeff_at self.(coeffs) (Z.to_nat self.(order) - S i) in
  horner self d (S i)
  = Ok ((c + (((d * a) `div` 2 ^ self.(FB) + h) `mod` m - h) + h) `mod` m - h).
Proof.
  intros Hp Hi Ha h m c. pose proof Hp as [Hd Hf HN Hc].
  change (horner self d (S i)) with
    (horner self d i ≫= fun a => stage_acc self d a (Z.of_nat (S i))).
  rewrite Ha. simpl.
  pose proof (getitem_coeff_at self (S i) Hp Hi) as Hg.
  apply getitem_Ok in Hg; [|lia].
  by rewrite (stage_acc_Ok self d a _ c) by (done || lia).
Qed.

Lemma horner_0 (self : TaylorPolyPipeline) (d : Z) :
  wf_params self ->
  horner self d 0 = Ok (coeff_at self.(coeffs) (Z.to_nat self.(order))).
Proof.
  intros Hp. simpl. pose proof (getitem_coeff_at self 0 Hp ltac:(lia)) as H.
  rewrite Z.sub_0_r, Nat.sub_0_r in H. exact H.
Qed.

(** Without overflow the evaluator's Horner steps are the floor steps. *)
Lemma horner_no_overflow (self : TaylorPolyPipeline) (d : Z) (i : nat) :
  wf_params self ->
  let n := Z.to_nat self.(order) in
  let s := 2 ^ self.(FB) in
  (i <= n)%nat ->
  (forall j, (j <= i)%nat -> in_range self.(DW) (horner_floor self.(coeffs) n s d j)) ->
  horner self d i = Ok (horner_floor self.(coeffs) n s d i).
Proof.
  intros Hp n s. induction i as [|i IH]; intros Hi Hr.
  - by apply horner_0.
  - rewrite (horner_S self d _ i Hp Hi (IH ltac:(lia) ltac:(intros j Hj; apply Hr; lia))).
    f_equal. fold n s.
    pose proof Hp as [Hd _ _ _].
    pose proof (pow2_split _ Hd) as H2.
    assert (0 < 2 ^ (self.(DW) - 1)) as Hh by (apply Z.pow_pos_nonneg; lia).
    set (h := 2 ^ (self.(DW) - 1)) in *. set (m := 2 ^ self.(DW)) in *.
    set (c := coeff_at self.(coeffs) (n - S i)).
    set (q := (d * horner_floor self.(coeffs) n s d i) `div` s).
    replace (c + ((q + h) `mod` m - h) + h) with (c + (q + h) `mod` m) by lia.
    rewrite Zplus_mod_idemp_r.
    specialize (Hr (S i) ltac:(lia)). simpl in Hr. fold c q in Hr.
    destruct Hr as [Hlo Hhi]. fold h in Hlo, Hhi.
    rewrite Z.mod_small by lia. simpl. fold c q. lia.
Qed.

(** The floor steps stay within one unit per step of the exact value, when
    the argument is at most one in magnitude. *)
Lemma horner_floor_error (cs : list Z) (n : nat) (s d : Z) (i : nat) :
  0 < s -> - s <= d <= s -> (i <= n)%nat ->
  Z.abs (s ^ Z.of_nat i * horner_floor cs n s d i - horner_sum cs n i s d)
  <= Z.of_nat i * s ^ Z.of_nat i.
Proof.
  intros Hs Hd. induction i as [|i IH]; intros Hi.
  - rewrite horner_sum_0. simpl. lia.
  - specialize (IH ltac:(lia)). rewrite horner_sum_S by done.
    change (horner_floor cs n s d (S i)) with
      (coeff_at cs (n - S i) + (d * horner_floor cs n s d i) `div` s).
    set (T := horner_floor cs n s d i) in *.
    set (E := horner_sum cs n i s d) in *.
    set (c := coeff_at cs (n - S i)).
    rewrite Nat2Z.inj_succ, Z.pow_succ_r by lia.
    assert (0 < s ^ Z.of_nat i) as Hp by (apply Z.pow_pos_nonneg; lia).
    set (p := s ^ Z.of_nat i) in *.
    pose proof (Z.div_mod (d * T) s ltac:(lia)) as Hq.
    pose proof (Z.mod_pos_bound (d * T) s ltac:(lia)) as Hb.
    set (q := (d * T) `div` s) in *. set (r := (d * T) `mod` s) in *.
    replace (s * p * (c + q) - (c * (s * p) + d * E))
      with (d * (p * T - E) - p * r) by nia.
    assert (Z.abs (d * (p * T - E)) <= s * (Z.of_nat i * p)) as H1.
    { rewrite Z.abs_mul. apply Z.mul_le_mono_nonneg; lia. }
    assert (0 <= p * r <= p * s) as H2 by nia.
    lia.
Qed.

(** The output a run from the reset state returns for the input of index
    [j]: the call of index [j + n] returns it. *)
Lemma clocks_reset_output (self : TaylorPolyPipeline) (ins : list (bool * Z))
    (j : nat) (v : bool) (x : Z) :
  wf_params self ->
  let n := Z.to_nat self.(order) in
  ins !! j = Some (v, x) ->
  (j + n < length ins)%nat ->
  exists self' outs y d,
    clocks (reset self) ins = Ok (self', outs) /\
    outs !! (j + n)%nat = Some (v, y) /\
    wrap (x - self.(x0)) self.(DW) = Ok d /\
    horner self d n = Ok y.
Proof.
  intros Hp n Hj Hlen.
  destruct (clocks_reset_total self ins Hp) as (self' & outs & H & Hl).
  destruct (lookup_lt_is_Some_2 outs (j + n)) as [[v' y] Hout]; [lia|].
  destruct (clocks_from_flushed _ _ _ _ _ _ H (flushed_reset self) Hout) as [_ Hhi].
  simpl in Hhi. fold n in Hhi.
  destruct (Hhi ltac:(lia)) as (x' & d & Hin & Hw & Hh).
  replace (j + n - n)%nat with j in Hin by lia.
  rewrite Hj in Hin. injection Hin as -> ->.
  rewrite (horner_same self (reset self)) in Hh by apply same_params_reset.
  by exists self', outs, y, d.
Qed.

(** X12.  Without overflow the evaluator is Horner's rule with each
    product's quotient by [2 ^ FB] rounded down: when [x - x0] and the [n]
    partial results of that rule all fit the signed [DW]-bit range, the
    output for the input [x] is exactly the result of the rule. *)
Theorem output_is_floor_horner (self : TaylorPolyPipeline) (ins : list (bool * Z))
    (j : nat) (v : bool) (x : Z) :
  wf_params self ->
  let n := Z.to_nat self.(order) in
  let s := 2 ^ self.(FB) in
  let d := x - self.(x0) in
  ins !! j = Some (v, x) ->
  (j + n < length ins)%nat ->
  in_range self.(DW) d ->
  (forall i, (i <= n)%nat -> in_range self.(DW) (horner_floor self.(coeffs) n s d i)) ->
  exists self' outs,
    clocks (reset self) ins = Ok (self', outs) /\
    outs !! (j + n)%nat = Some (v, horner_floor self.(coeffs) n s d n).
Proof.
  intros Hp n s d Hj Hlen Hd Hr. subst n s d.
  destruct (clocks_reset_output self ins j v x Hp Hj Hlen)
    as (self' & outs & y & d' & H & Hout & Hw & Hh).
  rewrite wrap_id in Hw by (done || apply Hp). injection Hw as <-.
  rewrite (horner_no_overflow self (x - self.(x0)) _ Hp) in Hh by done.
  injection Hh as <-. by exists self', outs.
Qed.

Lemma exp_dut_no_overflow (x : Z) :
  x = 65536 \/ x = 32768 ->
  forall i, (i <= 4)%nat ->
    in_range 32 (horner_floor exp_coeffs 4 (2 ^ 16) (x - 0) i).
Proof.
  intros Hx i Hi.
  destruct i as [|[|[|[|[|i]]]]]; [| | | | |lia];
    destruct Hx as [-> | ->]; unfold in_range; split; vm_compute; discriminate.
Defined.

(** [e^x] at 1.0 on the second test bench: 2.708... as 177494. *)
Lemma output_is_floor_horner_witness :
  exists self' outs,
    clocks (reset exp_dut)
      [(true, 65536); (false, 0); (false, 0); (false, 0); (false, 0)]
    = Ok (self', outs) /\
    outs !! 4%nat = Some (true, 177494).
Proof.
  apply (output_is_floor_horner exp_dut
           [(true, 65536); (false, 0); (false, 0); (false, 0); (false, 0)]
           0 true 65536).
  - split; simpl; lia.
  - reflexivity.
  - simpl. lia.
  - unfold in_range. simpl. lia.
  - apply exp_dut_no_overflow. by left.
Defined.

(** X13.  Accuracy.  When moreover [x - x0] is at most one in magnitude
    ([2 ^ FB] as a fixed-point number), the output differs from the exact
    value of the polynomial by at most [n] units of the last place: scaled
    by [s ^ n], with [s = 2 ^ FB], it is within [n * s ^ n] of the sum of
    the [c_k * d ^ k * s ^ (n - k)]. *)
Theorem truncation_error_bound (self : TaylorPolyPipeline) (ins : list (bool * Z))
    (j : nat) (v : bool) (x : Z) :
  wf_params self ->
  let n := Z.to_nat self.(order) in
  let s := 2 ^ self.(FB) in
  let d := x - self.(x0) in
  ins !! j = Some (v, x) ->
  (j + n < length ins)%nat ->
  in_range self.(DW) d ->
  - s <= d <= s ->
  (forall i, (i <= n)%nat -> in_range self.(DW) (horner_floor self.(coeffs) n s d i)) ->
  exists self' outs y,
    clocks (reset self) ins = Ok (self', outs) /\
    outs !! (j + n)%nat = Some (v, y) /\
    Z.abs (s ^ Z.of_nat n * y - poly_scaled self.(coeffs) n s d)
    <= Z.of_nat n * s ^ Z.of_nat n.
Proof.
  intros Hp n s d Hj Hlen Hd Hs Hr. subst n s d.
  destruct (clocks_reset_output self ins j v x Hp Hj Hlen)
    as (self' & outs & y & d' & H & Hout & Hw & Hh).
  rewrite wrap_id in Hw by (done || apply Hp). injection Hw as <-.
  rewrite (horner_no_overflow self (x - self.(x0)) _ Hp) in Hh by done.
  injection Hh as <-. eexists self', outs, _.
  split; [done|]. split; [done|].
  rewrite <- horner_sum_full. apply horner_floor_error; [|done|done].
  apply Z.pow_pos_nonneg; [lia | apply Hp].
Qed.

(** [e^x] at 0.5: within 4 units of the last place. *)
Lemma truncation_error_bound_witness :
  exists self' outs y,
    clocks (reset exp_dut)
      [(true, 32768); (false, 0); (false, 0); (false, 0); (false, 0)]
    = Ok (self', outs) /\
    outs !! 4%nat = Some (true, y) /\
    Z.abs ((2 ^ 16) ^ 4 * y - poly_scaled exp_coeffs 4 (2 ^ 16) 32768)
    <= 4 * (2 ^ 16) ^ 4.
Proof.
  apply (truncation_error_bound exp_dut
           [(true, 32768); (false, 0); (false, 0); (false, 0); (false, 0)]
           0 true 32768).
  - split; simpl; lia.
  - reflexivity.
  - simpl. lia.
  - unfold in_range. simpl. lia.
  - simpl. lia.
  - apply exp_dut_no_overflow. by right.
Defined.

Lemma wrap_form_divide (v bits : Z) :
  0 < bits ->
  (2 ^ bits | (v + 2 ^ (bits - 1)) `mod` 2 ^ bits - 2 ^ (bits - 1) - v).
Proof.
  intros Hb. apply Z.mod_divide; [apply Z.pow_nonzero; lia|].
  apply wrap_congr. by apply wrap_Ok.
Qed.

(** With no fraction bits the Horner steps are exact modulo [2 ^ DW]. *)
Lemma horner_integer_cong (self : TaylorPolyPipeline) (d d' : Z) (i : nat) :
  wf_params self -> self.(FB) = 0 ->
  let n := Z.to_nat self.(order) in
  (2 ^ self.(DW) | d - d') ->
  (i <= n)%nat ->
  exists y, horner self d i = Ok y /\
            (2 ^ self.(DW) | y - horner_sum self.(coeffs) n i 1 d').
Proof.
  intros Hp Hf n [t1 Ht1]. induction i as [|i IH]; intros Hi.
  - rewrite horner_0 by done. eexists. split; [done|].
    rewrite horner_sum_0. fold n. rewrite Z.sub_diag. apply Z.divide_0_r.
  - destruct (IH ltac:(lia)) as (a & Ha & [t2 Ht2]).
    rewrite (horner_S self d a i Hp Hi Ha). eexists. split; [done|].
    rewrite horner_sum_S by done. fold n.
    rewrite Hf, Z.pow_0_r, Z.div_1_r, Z.pow_1_l by lia.
    pose proof Hp as [Hd _ _ _].
    set (c := coeff_at self.(coeffs) (n - S i)).
    set (E := horner_sum self.(coeffs) n i 1 d') in *.
    set (h := 2 ^ (self.(DW) - 1)). set (m := 2 ^ self.(DW)) in *.
    destruct (wrap_form_divide (d * a) _ Hd) as [t3 Ht3]. fold h m in Ht3.
    set (r := (d * a + h) `mod` m - h) in *.
    destruct (wrap_form_divide (c + r) _ Hd) as [t4 Ht4]. fold h m in Ht4.
    exists (t4 + t3 + t1 * a + d' * t2).
    replace ((c + r + h) `mod` m - h - (c * 1 + d' * E))
      with (((c + r + h) `mod` m - h - (c + r)) + (r - d * a)
            + (d - d') * a + d' * (a - E)) by ring.
    rewrite Ht4, Ht3, Ht1, Ht2. ring.
Qed.

(** X14.  With [FB = 0] the evaluator works on integers and is exact up to
    the register width: its output for the input [x] is congruent modulo
    [2 ^ DW] to the value of the polynomial at [x - x0], overflow or not. *)
Theorem integer_evaluator_exact (self : TaylorPolyPipeline) (ins : list (bool * Z))
    (j : nat) (v : bool) (x : Z) :
  wf_params self ->
  self.(FB) = 0 ->
  let n := Z.to_nat self.(order) in
  ins !! j = Some (v, x) ->
  (j + n < length ins)%nat ->
  exists self' outs y,
    clocks (reset self) ins = Ok (self', outs) /\
    outs !! (j + n)%nat = Some (v, y) /\
    (y - poly_value self.(coeffs) n (x - self.(x0))) `mod` 2 ^ self.(DW) = 0.
Proof.
  intros Hp Hf n Hj Hlen. subst n.
  destruct (clocks_reset_output self ins j v x Hp Hj Hlen)
    as (self' & outs & y & d & H & Hout & Hw & Hh).
  exists self', outs, y. split; [done|]. split; [done|].
  assert (2 ^ self.(DW) | d - (x - self.(x0))) as Hd.
  { apply Z.mod_divide; [apply Z.pow_nonzero; [lia | apply Z.lt_le_incl, Hp]|].
    by apply wrap_congr. }
  destruct (horner_integer_cong self d (x - self.(x0)) _ Hp Hf Hd (Nat.le_refl _))
    as (y' & Hy & Hdiv).
  rewrite Hh in Hy. injection Hy as <-.
  rewrite horner_sum_full, poly_scaled_1 in Hdiv.
  apply Z.mod_divide; [apply Z.pow_nonzero; [lia | apply Z.lt_le_incl, Hp]|].
  exact Hdiv.
Qed.

(** 1 + 2 * 10 + 3 * 100 = 321 on 8 bits. *)
Lemma integer_evaluator_exact_witness :
  exists self' outs y,
    clocks (reset int_dut) [(true, 10); (false, 0); (false, 0)] = Ok (self', outs) /\
    outs !! 2%nat = Some (true, y) /\
    (y - poly_value [1; 2; 3] 2 (10 - 0)) `mod` 2 ^ 8 = 0.
Proof.
  apply (integer_evaluator_exact int_dut [(true, 10); (false, 0); (false, 0)]
           0 true 10).
  - split; simpl; lia.
  - reflexivity.
  - reflexivity.
  - simpl. lia.
Defined.

(** ** The test runner *)

(** The first test bench of [main] on doubles: seven checks, all passing,
    each against the square of its own input. *)
Example quad_run_test :
  verdicts (run_test binary64 quad_dut x_quad exp_quad 2)
  = Ok ((7, 0), [true; true; true; true; true; true; true]).
Proof. vm_compute. reflexivity. Qed.

(** [1e308] times [2 ^ 16] is an infinity, which [round] refuses; the
    conversion fails before the data width is looked at, and the runner
    fails with it while it converts its inputs. *)
Example real_to_fp_overflow :
  real_to_fp binary64 (double_of (10 ^ 308) 0) 16 32 = Raise OverflowError /\
  real_to_fp binary64 (double_of (10 ^ 308) 0) 16 0 = Raise OverflowError /\
  real_to_fp binary64 SpecFloat.S754_nan 16 32 = Raise ValueError /\
  real_to_fp binary64 (double_of 3 0) 1024 32 = Raise OverflowError /\
  fp_to_real binary64 (2 ^ 1024) 0 = Raise OverflowError /\
  verdicts (run_test binary64 quad_dut [double_of (10 ^ 308) 0] [double_of 1 0] 2)
  = Raise OverflowError.
Proof. vm_compute. by repeat split. Qed.

(** Halves go to the even neighbour, and one third is the double nearest to
    it. *)
Example double_rounding :
  real_to_fp binary64 (double_of 1 (-1)) 0 32 = Ok 0 /\
  real_to_fp binary64 (double_of 3 (-1)) 0 32 = Ok 2 /\
  real_to_fp binary64 (double_of 5 (-1)) 0 32 = Ok 2 /\
  real_to_fp binary64 (double_of (-5) (-1)) 0 32 = Ok (-2) /\
  real_to_fp binary64 (double_of (-7) (-1)) 0 32 = Ok (-4) /\
  double_div_int 1 3 = Ok (SpecFloat.S754_finite false 6004799503160661 (-54)) /\
  fp_to_real binary64 589824 16 = Ok (double_of 9 0).
Proof. vm_compute. by repeat split. Qed.

Lemma clocks_app (l1 l2 : list (bool * Z)) :
  forall self,
    clocks self (l1 ++ l2)
    = '(s1, o1) ← clocks self l1; '(s2, o2) ← clocks s1 l2; Ok (s2, o1 ++ o2).
Proof.
  induction l1 as [|[v x] l1 IH]; intros self; simpl.
  - by destruct (clocks self l2) as [[s o]|e].
  - destruct (clock self v x) as [[s1 o]|e]; simpl; [|done].
    rewrite IH. destruct (clocks s1 l1) as [[s1' o1]|e]; simpl; [|done].
    by destruct (clocks s1' l2) as [[s2 o2]|e].
Qed.

Lemma clocks_wf_regs (ins : list (bool * Z)) :
  forall self self' outs,
    wf_regs self -> clocks self ins = Ok (self', outs) -> wf_regs self'.
Proof.
  induction ins as [|[v x] rest IH]; intros self self' outs Hr H; simpl in H.
  - by injection H as <- <-.
  - inv_bind H. destruct r as [s1 [vo yo]].
    inv_bind H. destruct r as [s2 os]. injection H as <- <-.
    apply clock_inv in E as [_ _ Hr1 _ _ _ _ _ _]. by eapply IH.
Qed.

Lemma list_comp_spec {A B : Type} (f : A -> Result B) (l : list A) :
  Forall (fun x => exists y, f x = Ok y) l ->
  exists l', list_comp f l = Ok l' /\
             length l' = length l /\
             forall j x, l !! j = Some x -> exists y, l' !! j = Some y /\ f x = Ok y.
Proof.
  induction 1 as [|x l [y Hy] _ (l' & E & Hl & Hj)]; simpl.
  - exists []. split; [done|]. split; [done|]. intros j x H. by rewrite lookup_nil in H.
  - rewrite Hy. simpl. rewrite E. simpl.
    exists (y :: l'). split; [done|]. split; [simpl; lia|].
    intros [|j] x' H; simpl in *.
    + injection H as <-. by exists y.
    + by apply Hj.
Qed.

Lemma real_to_fp_wrap (F : FloatOps) (r : float F) (fb dw : Z) :
  0 <= fb ->
  real_to_fp F r fb dw = raw ← round_scaled F r (2 ^ fb); wrap raw dw.
Proof.
  intros Hf. unfold real_to_fp. rewrite lshift_Ok by done. simpl.
  by rewrite Z.mul_1_l.
Qed.

Lemma converts_same (F : FloatOps) (s s' : TaylorPolyPipeline) (x : float F) :
  same_params s s' -> converts F s x -> converts F s' x.
Proof.
  intros Hs (xf & d & y & got & H1 & H2 & H3 & H4).
  pose proof Hs as (_ & Ho & Hx & Hd & Hf & _).
  exists xf, d, y, got. rewrite Ho, Hx, Hd, Hf, (horner_same s s') by done.
  by repeat split.
Qed.

Lemma getitem_last {A : Type} (l : list A) (n : nat) (a : A) :
  length l = S n -> l !! n = Some a -> Py.getitem l (-1) = Ok a.
Proof.
  intros Hl Ha. unfold Py.getitem, Py.index. rewrite Hl.
  change (-1 <? 0) with true. cbv iota.
  destruct (Z.ltb_spec (-1 + Z.of_nat (S n)) 0); [lia|].
  destruct (Z.leb_spec (Z.of_nat (S n)) (-1 + Z.of_nat (S n))); [lia|]. simpl.
  replace (Z.to_nat (-1 + Z.of_nat (S n))) with n by lia. by rewrite Ha.
Qed.

(** [l[j - 1]] exists for every position [j] of [l]: the one before, or
    for the first position the last one. *)
Lemma getitem_prev {A : Type} (l : list A) (j : nat) :
  (j < length l)%nat -> exists a, Py.getitem l (Z.of_nat j - 1) = Ok a.
Proof.
  intros Hj. destruct j as [|j].
  - destruct (length l) as [|m] eqn:Hl; [lia|].
    destruct (lookup_lt_is_Some_2 l m ltac:(lia)) as [a Ha].
    exists a. by apply (getitem_last l m).
  - destruct (lookup_lt_is_Some_2 l j ltac:(lia)) as [a Ha].
    exists a. apply getitem_Ok; [lia|].
    by replace (Z.to_nat (Z.of_nat (S j) - 1)) with j by lia.
Qed.

Lemma slice_init_cons_lookup {A : Type} (l : list A) (a : A) (n i : nat) :
  length l = S n -> (i < n)%nat -> (a :: slice_init l) !! S i = l !! i.
Proof.
  intros Hl Hi. simpl. unfold slice_init. rewrite Hl.
  replace (S n - 1)%nat with n by lia. by apply lookup_take_lt.
Qed.

Lemma slice_init_cons_length {A : Type} (l : list A) (a : A) (n : nat) :
  length l = S n -> length (a :: slice_init l) = S n.
Proof.
  intros Hl. simpl. unfold slice_init. rewrite length_take, Hl. lia.
Qed.

Lemma harness_ins_length (xfp : list Z) (n : nat) :
  length (harness_ins xfp n) = (length xfp + S n)%nat.
Proof.
  unfold harness_ins. by rewrite length_app, length_fmap, length_replicate.
Qed.

Lemma harness_ins_valid (xfp : list Z) (n t : nat) (xf : Z) :
  xfp !! t = Some xf -> harness_ins xfp n !! t = Some (true, xf).
Proof.
  intros H. unfold harness_ins.
  rewrite lookup_app_l by (rewrite length_fmap; by eapply lookup_lt_Some).
  by rewrite list_lookup_fmap, H.
Qed.

Lemma harness_ins_drain (xfp : list Z) (n t : nat) :
  (length xfp <= t < length xfp + S n)%nat ->
  harness_ins xfp n !! t = Some (false, 0).
Proof.
  intros H. unfold harness_ins.
  rewrite lookup_app_r by (rewrite length_fmap; lia).
  rewrite length_fmap. apply lookup_replicate_2. lia.
Qed.

Section RunTest.

Context (F : FloatOps) (dut0 : TaylorPolyPipeline).
Context (xs es : list (float F)) (xfp : list Z) (tol : float F).

Hypothesis Hp : wf_params dut0.
Hypothesis Hr : wf_regs dut0.
Hypothesis Hfl : flushed dut0 0.
Hypothesis Hlat : dut0.(latency) = dut0.(order) + 1.
Hypothesis Hxl : length xfp = length xs.
Hypothesis Hxfp :
  forall j x, xs !! j = Some x ->
    exists xf, xfp !! j = Some xf /\ real_to_fp F x dut0.(FB) dut0.(DW) = Ok xf.
Hypothesis Hback : Forall (converts F dut0) xs.

(** What the runner drives on cycle [t]. *)
Lemma harness_drive (t : nat) :
  (t < length xs + S (Z.to_nat dut0.(order)))%nat ->
  ((t < length xs)%nat -> (t < length es)%nat) ->
  exists vin xin,
    (if Z.of_nat t <? Z.of_nat (length xs) then
       xin ← Py.getitem xfp (Z.of_nat t);
       exp ← Py.getitem es (Z.of_nat t);
       Ok (true, xin, exp)
     else Ok (false, 0, float_zero F))
    = Ok (vin, xin, exp_at F es (length xs) t) /\
    harness_ins xfp (Z.to_nat dut0.(order)) !! t = Some (vin, xin) /\
    (vin = true <-> (t < length xs)%nat).
Proof.
  intros Ht Hes. unfold exp_at.
  destruct (Z.ltb_spec (Z.of_nat t) (Z.of_nat (length xs))) as [Hlt|Hge].
  - destruct (lookup_lt_is_Some_2 xfp t ltac:(lia)) as [xf Hxf].
    destruct (lookup_lt_is_Some_2 es t ltac:(lia)) as [e He].
    exists true, xf.
    rewrite (proj2 (getitem_Ok xfp (Z.of_nat t) xf ltac:(lia)))
      by (by rewrite Nat2Z.id).
    simpl.
    rewrite (proj2 (getitem_Ok es (Z.of_nat t) e ltac:(lia)))
      by (by rewrite Nat2Z.id).
    simpl. destruct (decide (t < length xs)%nat); [|lia]. rewrite He. simpl.
    split; [done|]. split; [by apply harness_ins_valid|]. split; [lia|done].
  - exists false, 0.
    destruct (decide (t < length xs)%nat); [lia|].
    split; [done|]. split; [apply harness_ins_drain; lia|]. split; [done|lia].
Qed.

Lemma harness_step (t : nat) (st : run_state F) :
  harness_inv F dut0 xs es xfp tol t st ->
  (t < length xs + S (Z.to_nat dut0.(order)))%nat ->
  (forall c, (c <= t)%nat -> (c < length xs)%nat -> (c < length es)%nat) ->
  exists st1,
    run_test_body F xs es xfp tol dut0.(FB) st (Z.of_nat t) = Ok st1 /\
    harness_inv F dut0 xs es xfp tol (S t) st1.
Proof.
  intros ((outs & Hrun) & Hsr & Hsrl & Hlog & Hent & Hpass & Hsum) Ht Hes.
  set (n := Z.to_nat dut0.(order)) in *. set (L := length xs) in *.
  set (ins := harness_ins xfp n) in *.
  destruct (harness_drive t Ht (Hes t (Nat.le_refl t)))
    as (vin & xin & Hdrv & Hin & Hv).
  fold n ins L in Hdrv, Hin, Hv.
  assert (length ins = (L + S n)%nat) as Hlen
    by (unfold ins; rewrite harness_ins_length; unfold L; lia).
  assert (take (S t) ins = take t ins ++ [(vin, xin)]) as Htake
    by (by apply take_S_r).
  destruct (clocks_total (take (S t) ins) dut0 Hp Hr) as (s' & outs' & Hrun').
  pose proof Hrun' as Hrun1.
  rewrite Htake, clocks_app, Hrun in Hrun'. simpl in Hrun'.
  destruct (clock (rs_dut st) vin xin) as [[s1 [vout yout]]|e] eqn:Hclk;
    simpl in Hrun'; [|discriminate].
  injection Hrun' as <- <-.
  pose proof (clocks_length _ _ _ _ Hrun) as [Hlo _].
  rewrite length_take in Hlo.
  pose proof (clocks_length _ _ _ _ Hrun1) as [_ Hsame].
  assert ((outs ++ [(vout, yout)]) !! t = Some (vout, yout)) as Hout
    by (apply list_lookup_middle; lia).
  destruct (clocks_from_flushed _ _ _ _ _ _ Hrun1 Hfl Hout) as [Hnv Hvalid].
  fold n in Hnv, Hvalid. simpl in Hnv, Hvalid.
  pose proof Hp as [Hdw Hfb HN Hcs].
  assert (length (exp_at F es L t :: slice_init (rs_sr st)) = S n) as Hsr'
    by (by apply slice_init_cons_length).
  assert (forall i, (i <= n)%nat -> (i < S t)%nat ->
            (exp_at F es L t :: slice_init (rs_sr st)) !! i
            = Some (exp_at F es L (S t - 1 - i))) as Hsrl'.
  { intros [|i] Hi1 Hi2.
    - simpl. do 2 f_equal. lia.
    - rewrite (slice_init_cons_lookup _ _ n) by (done || lia).
      rewrite Hsrl by lia. do 2 f_equal. lia. }
  unfold run_test_body. fold L. rewrite Hdrv. simpl. rewrite Hclk. simpl.
  destruct vout.
  - assert (n <= t)%nat as Hnt.
    { destruct (decide (n <= t)%nat); [done|]. by specialize (Hnv ltac:(lia)). }
    destruct (Hvalid Hnt) as (x' & d & Hl & Hw & Hh).
    rewrite lookup_take_lt in Hl by lia.
    assert (t - n < L)%nat as Hj.
    { destruct (decide (t - n < L)%nat); [done|].
      unfold ins in Hl. rewrite harness_ins_drain in Hl by (rewrite Hxl; fold L; lia).
      discriminate. }
    destruct (lookup_lt_is_Some_2 xs (t - n) Hj) as [xj Hxj].
    destruct (Hxfp _ _ Hxj) as (xf & Hxf & Hconv).
    unfold ins in Hl. rewrite (harness_ins_valid _ _ _ _ Hxf) in Hl.
    injection Hl as <-.
    destruct (lookup_lt_is_Some_2 es (t - n) (Hes (t - n)%nat ltac:(lia) Hj))
      as [e He].
    assert (exists got, fp_to_real F yout dut0.(FB) = Ok got) as [got Hgot].
    { rewrite Forall_lookup in Hback.
      destruct (Hback _ _ Hxj) as (xf' & d' & y' & got & H1 & H2 & H3 & H4).
      fold n in H3. exists got. congruence. }
    rewrite Hgot. simpl.
    assert ((exp_at F es L t :: slice_init (rs_sr st)) !! n = Some e) as Hexp.
    { rewrite Hsrl' by lia. f_equal. unfold exp_at.
      replace (S t - 1 - n)%nat with (t - n)%nat by lia.
      destruct (decide (t - n < L)%nat); [|lia]. by rewrite He. }
    rewrite (getitem_last _ n e Hsr' Hexp). simpl.
    destruct Hsame as (_ & Ho & _ & _ & _ & Hla).
    destruct (getitem_prev xs (t - n) Hj) as [xl Hxl'].
    replace (Z.of_nat t - latency s1) with (Z.of_nat (t - n) - 1)
      by (rewrite Hla, Hlat; unfold n; lia).
    rewrite Hxl'. simpl.
    assert (forall b, b = float_le F (abs_diff F got e) tol ->
              is_entry F dut0 xs es tol (t - n)
                (mkCheck b xl got e (abs_diff F got e))) as Hentry.
    { intros b ->. exists xj, xf, d, yout, got, e. simpl.
      by repeat split. }
    assert (forall b,
              b = float_le F (abs_diff F got e) tol ->
              forall j chk,
                (rs_log st ++ [mkCheck b xl got e (abs_diff F got e)]) !! j = Some chk ->
                is_entry F dut0 xs es tol j chk) as Hent'.
    { intros b Hb j chk Hjc.
      apply lookup_app_Some in Hjc as [Hjc|[Hge Hjc]]; [by apply Hent|].
      apply list_lookup_singleton_Some in Hjc as [Hj0 <-].
      replace j with (t - n)%nat by lia. by apply Hentry. }
    destruct (float_le F (abs_diff F got e) tol) eqn:Hle.
    + eexists. split; [reflexivity|].
      split; [by exists (outs ++ [(true, yout)])|]. simpl.
      split; [done|]. split; [done|].
      split; [rewrite length_app; simpl; lia|].
      split; [by apply Hent'|].
      rewrite List.filter_app, !length_app. simpl. lia.
    + eexists. split; [reflexivity|].
      split; [by exists (outs ++ [(true, yout)])|]. simpl.
      split; [done|]. split; [done|].
      split; [rewrite length_app; simpl; lia|].
      split; [by apply Hent'|].
      rewrite List.filter_app, !length_app. simpl. lia.
  - eexists. split; [reflexivity|].
    split; [by exists (outs ++ [(false, yout)])|]. simpl.
    split; [done|]. split; [done|]. split; [|done].
    destruct (decide (n <= t)%nat) as [Hnt|Hnt]; [|lia].
    destruct (Hvalid Hnt) as (x' & d & Hl & _).
    rewrite lookup_take_lt in Hl by lia.
    assert (~ (t - n < L)%nat) as Hj.
    { intros Hj.
      destruct (lookup_lt_is_Some_2 xfp (t - n) ltac:(rewrite Hxl; done)) as [xf Hxf].
      unfold ins in Hl. rewrite (harness_ins_valid _ _ _ _ Hxf) in Hl. discriminate. }
    lia.
Qed.

Lemma harness_loop (b k : nat) :
  forall (t : nat) (st : run_state F),
    (t + k = b)%nat ->
    (b <= length xs + S (Z.to_nat dut0.(order)))%nat ->
    (forall c, (c < b)%nat -> (c < length xs)%nat -> (c < length es)%nat) ->
    harness_inv F dut0 xs es xfp tol t st ->
    exists st',
      Py.for_each (run_test_body F xs es xfp tol dut0.(FB)) st
        (Py.range (Z.of_nat t) (Z.of_nat b)) = Ok st' /\
      harness_inv F dut0 xs es xfp tol b st'.
Proof.
  induction k as [|k IH]; intros t st Hk Hb Hes Hinv.
  - rewrite range_nil by lia. exists st. split; [done|].
    by replace b with t by lia.
  - rewrite range_cons by lia. simpl.
    destruct (harness_step t st Hinv ltac:(lia)) as (st1 & E & Hinv1).
    { intros c Hc. apply Hes. lia. }
    rewrite E. simpl.
    replace (Z.of_nat t + 1) with (Z.of_nat (S t)) by lia.
    apply IH; (done || lia).
Qed.

Lemma harness_inv_init :
  harness_inv F dut0 xs es xfp tol 0
    (mkRunState dut0 (Py.repeat (float_zero F) dut0.(latency)) 0 0 []).
Proof.
  pose proof Hp as [_ _ HN _].
  split; [by exists []|]. simpl.
  split; [rewrite length_repeat; lia|].
  split; [intros i _ Hi; lia|].
  split; [lia|]. split; [|done].
  intros j chk H. by rewrite lookup_nil in H.
Qed.

End RunTest.

Lemma converts_real_to_fp (F : FloatOps) (dut : TaylorPolyPipeline)
    (xs : list (float F)) :
  Forall (converts F dut) xs ->
  Forall (fun x => exists y, real_to_fp F x dut.(FB) dut.(DW) = Ok y) xs.
Proof.
  induction 1 as [|x l (xf & _ & _ & _ & Hx & _) _ IH]; constructor;
    [by exists xf | done].
Qed.

Lemma wrap_bad_width (v bits : Z) : bits <= 0 -> wrap v bits = Raise ValueError.
Proof.
  intros H. unfold wrap, to_unsigned, to_signed, Py.lshift.
  destruct (Z.ltb_spec bits 0); [done|]. simpl.
  by destruct (Z.ltb_spec (bits - 1) 0); [|lia].
Qed.

(** What [run_test] does on an evaluator that meets the construction
    contract and holds no valid data, given enough expected values, when
    no float operation raises. *)
Lemma run_test_spec (F : FloatOps) (dut : TaylorPolyPipeline)
    (xs es : list (float F)) (tol_lsb : Z) (tol : float F) :
  wf_params dut -> wf_regs dut -> flushed dut 0 ->
  dut.(latency) = dut.(order) + 1 ->
  int_div F tol_lsb (2 ^ dut.(FB)) = Ok tol ->
  Forall (converts F dut) xs ->
  (length xs <= length es)%nat ->
  exists dut' p f log,
    run_test F dut xs es tol_lsb = Ok (dut', (p, f), log) /\
    same_params dut dut' /\ wf_regs dut' /\ flushed dut' 0 /\
    length log = length xs /\
    p = Z.of_nat (length (List.filter chk_pass log)) /\
    p + f = Z.of_nat (length xs) /\
    forall j chk,
      log !! j = Some chk ->
      is_entry F dut xs es tol j chk.
Proof.
  intros Hp Hr Hfl Hlat Htol Hconv Hes. pose proof Hp as [Hdw Hfb HN Hcs].
  set (n := Z.to_nat dut.(order)).
  destruct (list_comp_spec (fun x => real_to_fp F x dut.(FB) dut.(DW)) xs)
    as (xfp & Hcomp & Hxl & Hxfp).
  { by apply converts_real_to_fp. }
  unfold run_test. rewrite lshift_Ok by done. simpl.
  rewrite Z.mul_1_l, Htol. simpl. rewrite Hcomp. simpl.
  replace (Z.of_nat (length xs) + latency dut) with (Z.of_nat (length xs + S n))
    by (rewrite Hlat; unfold n; lia).
  destruct (harness_loop F dut xs es xfp tol
              Hp Hr Hfl Hlat Hxl Hxfp Hconv (length xs + S n) (length xs + S n) 0
              (mkRunState dut (Py.repeat (float_zero F) dut.(latency)) 0 0 []))
    as (st' & Hloop & Hinv); [lia | done | intros; lia | by apply harness_inv_init |].
  change (Z.of_nat 0) with 0 in Hloop. rewrite Hloop. simpl.
  destruct Hinv as ((outs & Hrun) & _ & _ & Hlog & Hent & Hpass & Hsum).
  fold n in Hrun, Hlog.
  rewrite take_ge in Hrun by (rewrite harness_ins_length; lia).
  exists (rs_dut st'), (rs_pass st'), (rs_fail st'), (rs_log st').
  split; [done|].
  pose proof (clocks_length _ _ _ _ Hrun) as [_ Hsame].
  split; [done|]. split; [by eapply clocks_wf_regs|].
  assert (length (rs_log st') = length xs) as Hlen by lia.
  split; [|split; [done|]; split; [done|]; split; [lia | done]].
  destruct (clocks_trace _ _ [] _ _ Hrun (tracks_nil dut) Hfl) as (Htr & _ & _).
  rewrite app_nil_r in Htr.
  destruct Hsame as (_ & Ho & _).
  intros i _ Hi. rewrite Ho in Hi.
  assert (reverse (harness_ins xfp n) !! i = Some (false, 0)) as Hl.
  { rewrite reverse_lookup by (rewrite harness_ins_length; lia).
    apply harness_ins_drain. rewrite harness_ins_length. lia. }
  destruct (Htr i false 0 ltac:(lia) Hl) as (d & y & _ & _ & Hv & _). exact Hv.
Qed.

Lemma quad_dut_ready :
  wf_params quad_dut /\ wf_regs quad_dut /\ flushed quad_dut 0 /\
  quad_dut.(latency) = quad_dut.(order) + 1.
Proof.
  split; [split; simpl; lia|]. split; [split; reflexivity|].
  split; [exact (flushed_reset quad_dut) | reflexivity].
Defined.

(** Shows by evaluation that a double converts on a given evaluator. *)
Ltac converts_by_evaluation :=
  eexists _, _, _, _;
  split; [vm_compute; reflexivity|];
  split; [vm_compute; reflexivity|];
  split; [vm_compute; reflexivity|];
  vm_compute; reflexivity.

Lemma x_quad_converts : Forall (converts binary64 quad_dut) x_quad.
Proof. repeat (constructor; [converts_by_evaluation|]). constructor. Defined.

(** X15.  [real_to_fp] raises [ValueError] when the fraction width is
    negative.  Otherwise it first rounds the scaled float, and an exception
    of that step ([OverflowError] for a product that is infinite or a scale
    too large for a float, [ValueError] for a nan) is the outcome, whatever
    the data width.  When the rounding returns, a data width that is not
    positive gives [ValueError], and a positive one gives the rounded value
    reduced into the signed range: that value itself when it fits, and
    silently a wrapped one when it does not. *)
Theorem real_to_fp_outcome (F : FloatOps) (r : float F) (frac_bits data_width : Z) :
  (frac_bits < 0 -> real_to_fp F r frac_bits data_width = Raise ValueError) /\
  (0 <= frac_bits ->
   forall e,
     round_scaled F r (2 ^ frac_bits) = Raise e ->
     real_to_fp F r frac_bits data_width = Raise e) /\
  (0 <= frac_bits ->
   forall raw,
     round_scaled F r (2 ^ frac_bits) = Ok raw ->
     (data_width <= 0 -> real_to_fp F r frac_bits data_width = Raise ValueError) /\
     (0 < data_width ->
      exists v,
        real_to_fp F r frac_bits data_width = Ok v /\
        in_range data_width v /\
        (v - raw) `mod` 2 ^ data_width = 0 /\
        (in_range data_width raw -> v = raw))).
Proof.
  split; [|split].
  - intros H. unfold real_to_fp, Py.lshift.
    by destruct (Z.ltb_spec frac_bits 0); [|lia].
  - intros Hf e He. rewrite real_to_fp_wrap by done. by rewrite He.
  - intros Hf raw Hraw. rewrite real_to_fp_wrap by done. rewrite Hraw. simpl.
    split; [by apply wrap_bad_width|].
    intros Hd. pose proof (wrap_Ok raw _ Hd) as Hv.
    eexists. split; [exact Hv|].
    split; [by eapply wrap_in_range|]. split; [by apply wrap_congr|].
    intros Hr. rewrite wrap_id in Hv by done. by injection Hv.
Qed.

(** [1e308] overflows even where the data width is bad; 40000.0 does not
    fit Q15.16 and comes back negative. *)
Lemma real_to_fp_outcome_witness :
  real_to_fp binary64 (double_of 3 0) (-1) 32 = Raise ValueError /\
  real_to_fp binary64 (double_of (10 ^ 308) 0) 16 0 = Raise OverflowError /\
  real_to_fp binary64 (double_of 3 0) 16 0 = Raise ValueError /\
  real_to_fp binary64 (double_of 3 0) 16 32 = Ok 196608 /\
  real_to_fp binary64 (double_of 40000 0) 16 32 = Ok (-1673527296).
Proof.
  split; [|split; [|split; [|split]]].
  - apply (proj1 (real_to_fp_outcome binary64 (double_of 3 0) (-1) 32)). lia.
  - apply (proj1 (proj2 (real_to_fp_outcome binary64 (double_of (10 ^ 308) 0) 16 0)));
      [lia | vm_compute; reflexivity].
  - apply (proj2 (proj2 (real_to_fp_outcome binary64 (double_of 3 0) 16 0))
             ltac:(lia) 196608); [vm_compute; reflexivity | lia].
  - destruct (proj2 (proj2 (proj2 (real_to_fp_outcome binary64 (double_of 3 0) 16 32))
                       ltac:(lia) 196608 ltac:(vm_compute; reflexivity))
                ltac:(lia)) as (v & Hv & _ & _ & Hfit).
    rewrite Hv. f_equal. apply Hfit. unfold in_range. split; vm_compute; discriminate.
  - destruct (proj2 (proj2 (proj2 (real_to_fp_outcome binary64 (double_of 40000 0) 16 32))
                       ltac:(lia) 2621440000 ltac:(vm_compute; reflexivity))
                ltac:(lia)) as (v & Hv & _ & _ & _).
    rewrite Hv. vm_compute in Hv. exact (eq_sym Hv).
Defined.

(** X16.  On an evaluator that meets the construction contract and holds
    no valid data (a fresh one, say), with at least as many expected values
    as inputs, and when no float operation raises (the tolerance divides,
    each input converts to fixed point and its output converts back),
    [run_test] returns, prints exactly one line per input and returns
    counters that add up to the number of inputs, [pass_cnt] being the
    number of PASS lines. *)
Theorem run_test_checks_every_input (F : FloatOps) (dut : TaylorPolyPipeline)
    (xs es : list (float F)) (tol_lsb : Z) (tol : float F) :
  wf_params dut -> wf_regs dut -> flushed dut 0 ->
  dut.(latency) = dut.(order) + 1 ->
  int_div F tol_lsb (2 ^ dut.(FB)) = Ok tol ->
  Forall (converts F dut) xs ->
  (length xs <= length es)%nat ->
  exists dut' p f log,
    run_test F dut xs es tol_lsb = Ok (dut', (p, f), log) /\
    length log = length xs /\
    p + f = Z.of_nat (length xs) /\
    p = Z.of_nat (length (List.filter chk_pass log)) /\
    f = Z.of_nat (length (List.filter (fun c => negb (chk_pass c)) log)).
Proof.
  intros Hp Hr Hfl Hlat Htol Hconv Hes.
  destruct (run_test_spec F dut xs es tol_lsb tol Hp Hr Hfl Hlat Htol Hconv Hes)
    as (dut' & p & f & log & H & _ & _ & _ & Hlen & Hpass & Hsum & _).
  exists dut', p, f, log. repeat split; try done.
  pose proof (List.filter_length chk_pass log) as Hfl'. lia.
Qed.

Lemma run_test_checks_every_input_witness :
  exists dut' p f log,
    run_test binary64 quad_dut x_quad exp_quad 2 = Ok (dut', (p, f), log) /\
    length log = 7%nat /\
    p + f = 7.
Proof.
  destruct quad_dut_ready as (Hp & Hr & Hfl & Hlat).
  destruct (run_test_checks_every_input binary64 quad_dut x_quad exp_quad 2
              (double_of 1 (-15))
              Hp Hr Hfl Hlat ltac:(vm_compute; reflexivity) x_quad_converts
              ltac:(simpl; lia))
    as (dut' & p & f & log & H & Hlen & Hsum & _).
  exists dut', p, f, log. split; [exact H|]. split; [exact Hlen | exact Hsum].
Defined.



(** X18.  The input shown in a line is not the one the line checks: the
    [j]-th line shows [x_values[j - 1]], the input before, and the first
    line shows the last input ([x_values[-1]]). *)
Theorem run_test_label_lags (F : FloatOps) (dut : TaylorPolyPipeline)
    (xs es : list (float F)) (tol_lsb : Z) (tol : float F) :
  wf_params dut -> wf_regs dut -> flushed dut 0 ->
  dut.(latency) = dut.(order) + 1 ->
  int_div F tol_lsb (2 ^ dut.(FB)) = Ok tol ->
  Forall (converts F dut) xs ->
  (length xs <= length es)%nat ->
  exists dut' counts log,
    run_test F dut xs es tol_lsb = Ok (dut', counts, log) /\
    length log = length xs /\
    (forall j chk,
       log !! j = Some chk ->
       Py.getitem xs (Z.of_nat j - 1) = Ok (chk_x chk)) /\
    (forall j chk,
       log !! S j = Some chk -> xs !! j = Some (chk_x chk)) /\
    (forall chk,
       log !! 0%nat = Some chk -> xs !! (length xs - 1)%nat = Some (chk_x chk)).
Proof.
  intros Hp Hr Hfl Hlat Htol Hconv Hes.
  destruct (run_test_spec F dut xs es tol_lsb tol Hp Hr Hfl Hlat Htol Hconv Hes)
    as (dut' & p & f & log & H & _ & _ & _ & Hlen & _ & _ & Hent).
  exists dut', (p, f), log. split; [done|]. split; [done|].
  assert (forall j chk, log !! j = Some chk ->
            Py.getitem xs (Z.of_nat j - 1) = Ok (chk_x chk)) as Hlab.
  { intros j chk Hj.
    by destruct (Hent j chk Hj)
      as (x & xf & d & y & got & e & _ & _ & _ & _ & _ & _ & _ & _ & _ & _ & Hl). }
  split; [done|]. split.
  - intros j chk Hj. specialize (Hlab _ _ Hj).
    apply getitem_Ok in Hlab; [|lia].
    by replace (Z.to_nat (Z.of_nat (S j) - 1)) with j in Hlab by lia.
  - intros chk Hj. specialize (Hlab _ _ Hj).
    change (Z.of_nat 0 - 1) with (-1) in Hlab.
    destruct (length xs) as [|m] eqn:Hl.
    { unfold Py.getitem, Py.index in Hlab. rewrite Hl in Hlab. discriminate. }
    destruct (lookup_lt_is_Some_2 xs m ltac:(lia)) as [a Ha].
    rewrite (getitem_last xs m a Hl Ha) in Hlab. injection Hlab as <-.
    by replace (S m - 1)%nat with m by lia.
Qed.

Lemma run_test_label_lags_witness :
  exists dut' counts log,
    run_test binary64 quad_dut [double_of 3 0; double_of 2 0]
      [double_of 9 0; double_of 4 0] 2 = Ok (dut', counts, log) /\
    length log = 2%nat /\
    (forall chk, log !! 0%nat = Some chk -> chk_x chk = double_of 2 0) /\
    (forall chk, log !! 1%nat = Some chk -> chk_x chk = double_of 3 0).
Proof.
  destruct quad_dut_ready as (Hp & Hr & Hfl & Hlat).
  destruct (run_test_label_lags binary64 quad_dut [double_of 3 0; double_of 2 0]
              [double_of 9 0; double_of 4 0] 2 (double_of 1 (-15))
              Hp Hr Hfl Hlat ltac:(vm_compute; reflexivity)
              ltac:(repeat (constructor; [converts_by_evaluation|]); constructor)
              ltac:(simpl; lia))
    as (dut' & counts & log & H & Hlen & _ & Hprev & Hfirst).
  exists dut', counts, log. split; [exact H|]. split; [exact Hlen|]. split.
  - intros chk Hc. specialize (Hfirst chk Hc). simpl in Hfirst.
    by injection Hfirst as <-.
  - intros chk Hc. specialize (Hprev 0%nat chk Hc). simpl in Hprev.
    by injection Hprev as <-.
Defined.

(** X19.  A run that returns leaves the evaluator drained: its parameters
    are unchanged and every valid flag is [False], so a second run on the
    same evaluator, without a reset in between, again checks every one of
    its inputs (when its float operations raise nothing either). *)
Theorem run_test_leaves_drained (F : FloatOps) (dut : TaylorPolyPipeline)
    (xs es xs2 es2 : list (float F)) (tol_lsb tol_lsb2 : Z) (tol tol2 : float F) :
  wf_params dut -> wf_regs dut -> flushed dut 0 ->
  dut.(latency) = dut.(order) + 1 ->
  int_div F tol_lsb (2 ^ dut.(FB)) = Ok tol ->
  int_div F tol_lsb2 (2 ^ dut.(FB)) = Ok tol2 ->
  Forall (converts F dut) xs ->
  Forall (converts F dut) xs2 ->
  (length xs <= length es)%nat ->
  (length xs2 <= length es2)%nat ->
  exists dut' counts log dut'' p2 f2 log2,
    run_test F dut xs es tol_lsb = Ok (dut', counts, log) /\
    same_params dut dut' /\
    dut'.(vld_r) = Py.repeat false (dut.(order) + 1) /\
    run_test F dut' xs2 es2 tol_lsb2 = Ok (dut'', (p2, f2), log2) /\
    length log2 = length xs2 /\
    p2 + f2 = Z.of_nat (length xs2).
Proof.
  intros Hp Hr Hfl Hlat Htol Htol2 Hconv Hconv2 Hes Hes2.
  destruct (run_test_spec F dut xs es tol_lsb tol Hp Hr Hfl Hlat Htol Hconv Hes)
    as (dut' & p & f & log & H & Hsame & Hr' & Hfl' & _).
  pose proof (wf_params_same _ _ Hsame Hp) as Hp'.
  pose proof Hsame as (_ & Ho & _ & _ & Hfb & Hla).
  assert (Forall (converts F dut') xs2) as Hconv2'.
  { clear -Hconv2 Hsame.
    induction Hconv2 as [|x l Hx _ IH]; constructor; [|done].
    by apply (converts_same F dut). }
  destruct (run_test_spec F dut' xs2 es2 tol_lsb2 tol2 Hp' Hr' Hfl'
              ltac:(congruence) ltac:(by rewrite Hfb) Hconv2' Hes2)
    as (dut'' & p2 & f2 & log2 & H2 & _ & _ & _ & Hlen2 & _ & Hsum2 & _).
  exists dut', (p, f), log, dut'', p2, f2, log2.
  split; [done|]. split; [done|].
  split; [|split; [done|]; split; done].
  destruct Hr' as [_ _ Hv]. rewrite Ho in Hv.
  apply list_eq. intros i. unfold Py.repeat.
  destruct (decide (i < Z.to_nat (order dut + 1))%nat) as [Hi|Hi].
  - rewrite lookup_replicate_2 by done. apply Hfl'; lia.
  - rewrite (lookup_ge_None_2 (vld_r dut')) by lia.
    symmetry. apply lookup_ge_None_2. rewrite length_replicate. lia.
Qed.

Lemma run_test_leaves_drained_witness :
  exists dut' counts log dut'' p2 f2 log2,
    run_test binary64 quad_dut [double_of 3 0; double_of 2 0]
      [double_of 9 0; double_of 4 0] 2 = Ok (dut', counts, log) /\
    dut'.(vld_r) = [false; false; false] /\
    run_test binary64 dut' [double_of 1 0] [double_of 1 0] 2
    = Ok (dut'', (p2, f2), log2) /\
    p2 + f2 = 1.
Proof.
  destruct quad_dut_ready as (Hp & Hr & Hfl & Hlat).
  destruct (run_test_leaves_drained binary64 quad_dut
              [double_of 3 0; double_of 2 0] [double_of 9 0; double_of 4 0]
              [double_of 1 0] [double_of 1 0] 2 2
              (double_of 1 (-15)) (double_of 1 (-15))
              Hp Hr Hfl Hlat
              ltac:(vm_compute; reflexivity) ltac:(vm_compute; reflexivity)
              ltac:(repeat (constructor; [converts_by_evaluation|]); constructor)
              ltac:(repeat (constructor; [converts_by_evaluation|]); constructor)
              ltac:(simpl; lia) ltac:(simpl; lia))
    as (dut' & counts & log & dut'' & p2 & f2 & log2 & H & _ & Hv & H2 & _ & Hs).
  exists dut', counts, log, dut'', p2, f2, log2.
  split; [exact H|]. split; [exact Hv|]. split; [exact H2 | exact Hs].
Defined.

(** X20.  What [run_test] raises before its loop.  A negative fraction
    width gives [ValueError], whatever else it is given.  Otherwise an
    exception of the division [tol_lsb / scale] is the outcome; and when
    that division returns, the inputs are converted in order: an exception
    of the rounding of the first input is the outcome, whatever the data
    width, and when that rounding returns, a data width that is not
    positive gives [ValueError]. *)
Theorem run_test_bad_widths (F : FloatOps) (dut : TaylorPolyPipeline)
    (xs es : list (float F)) (tol_lsb : Z) :
  (dut.(FB) < 0 -> run_test F dut xs es tol_lsb = Raise ValueError) /\
  (0 <= dut.(FB) ->
   forall e,
     int_div F tol_lsb (2 ^ dut.(FB)) = Raise e ->
     run_test F dut xs es tol_lsb = Raise e) /\
  (0 <= dut.(FB) ->
   forall tol x xs',
     int_div F tol_lsb (2 ^ dut.(FB)) = Ok tol ->
     xs = x :: xs' ->
     (forall e,
        round_scaled F x (2 ^ dut.(FB)) = Raise e ->
        run_test F dut xs es tol_lsb = Raise e) /\
     (forall raw,
        round_scaled F x (2 ^ dut.(FB)) = Ok raw ->
        dut.(DW) <= 0 ->
        run_test F dut xs es tol_lsb = Raise ValueError)).
Proof.
  split; [|split].
  - intros Hf. unfold run_test, Py.lshift.
    by destruct (Z.ltb_spec (FB dut) 0); [|lia].
  - intros Hf e He. unfold run_test. rewrite lshift_Ok by done. simpl.
    by rewrite Z.mul_1_l, He.
  - intros Hf tol x xs' Htol ->.
    assert (forall e,
              real_to_fp F x dut.(FB) dut.(DW) = Raise e ->
              run_test F dut (x :: xs') es tol_lsb = Raise e) as Hfirst.
    { intros e He. unfold run_test. rewrite lshift_Ok by done. simpl.
      rewrite Z.mul_1_l, Htol. simpl. by rewrite He. }
    split.
    + intros e He. apply Hfirst. rewrite real_to_fp_wrap by done. by rewrite He.
    + intros raw Hraw Hd. apply Hfirst. rewrite real_to_fp_wrap by done.
      rewrite Hraw. simpl. by apply wrap_bad_width.
Qed.

Lemma run_test_bad_widths_witness :
  run_test binary64 (mkPipeline [7] 0 0 32 (-1) 1 [0] [0] [false])
    [double_of 3 0] [double_of 9 0] 2 = Raise ValueError /\
  run_test binary64 (mkPipeline [7] 0 0 32 0 1 [0] [0] [false])
    [double_of 3 0] [double_of 9 0] (2 ^ 1024) = Raise OverflowError /\
  run_test binary64 (mkPipeline [7] 0 0 0 16 1 [0] [0] [false])
    [double_of (10 ^ 308) 0; double_of 2 0] [double_of 1 0] 2 = Raise OverflowError /\
  run_test binary64 (mkPipeline [7] 0 0 0 16 1 [0] [0] [false])
    [double_of 3 0] [double_of 9 0] 2 = Raise ValueError.
Proof.
  split; [|split; [|split]].
  - apply (proj1 (run_test_bad_widths binary64
                    (mkPipeline [7] 0 0 32 (-1) 1 [0] [0] [false])
                    [double_of 3 0] [double_of 9 0] 2)).
    simpl. lia.
  - apply (proj1 (proj2 (run_test_bad_widths binary64
                           (mkPipeline [7] 0 0 32 0 1 [0] [0] [false])
                           [double_of 3 0] [double_of 9 0] (2 ^ 1024)))).
    + simpl. lia.
    + vm_compute. reflexivity.
  - pose proof (proj2 (proj2 (run_test_bad_widths binary64
                                (mkPipeline [7] 0 0 0 16 1 [0] [0] [false])
                                [double_of (10 ^ 308) 0; double_of 2 0]
                                [double_of 1 0] 2))) as H.
    assert (0 <= 16) as H16 by lia.
    destruct (H H16 (double_of 1 (-15)) (double_of (10 ^ 308) 0) [double_of 2 0])
      as [Hraise _].
    + vm_compute. reflexivity.
    + reflexivity.
    + apply Hraise. vm_compute. reflexivity.
  - pose proof (proj2 (proj2 (run_test_bad_widths binary64
                                (mkPipeline [7] 0 0 0 16 1 [0] [0] [false])
                                [double_of 3 0] [double_of 9 0] 2))) as H.
    assert (0 <= 16) as H16 by lia.
    destruct (H H16 (double_of 1 (-15)) (double_of 3 0) []) as [_ Hwidth].
    + vm_compute. reflexivity.
    + reflexivity.
    + apply (Hwidth 196608).
      * vm_compute. reflexivity.
      * simpl. lia.
Defined.

Lemma for_each_app {S : Type} (body : S -> Z -> Result S) (l1 l2 : list Z) :
  forall acc,
    Py.for_each body acc (l1 ++ l2)
    = acc' ← Py.for_each body acc l1; Py.for_each body acc' l2.
Proof.
  induction l1 as [|i l1 IH]; intros acc; simpl; [done|].
  destruct (body acc i) as [acc'|e]; simpl; [apply IH | done].
Qed.

Lemma range_app (a b c : Z) :
  a <= b <= c -> Py.range a c = Py.range a b ++ Py.range b c.
Proof.
  intros [Hab Hbc].
  assert (forall k a, Z.to_nat (b - a) = k -> a <= b ->
            Py.range a c = Py.range a b ++ Py.range b c) as Hind.
  { clear a Hab. induction k as [|k IH]; intros a Hk Ha.
    - assert (a = b) as -> by lia. by rewrite (range_nil b b) by lia.
    - rewrite (range_cons a c), (range_cons a b) by lia. simpl. f_equal.
      apply IH; lia. }
  by apply (Hind (Z.to_nat (b - a))).
Qed.

Lemma run_test_body_short (F : FloatOps) (xs es : list (float F)) (xfp : list Z)
    (tol : float F) (FBv : Z) (st : run_state F) (t : nat) :
  (t < length xs)%nat -> (t < length xfp)%nat -> (length es <= t)%nat ->
  run_test_body F xs es xfp tol FBv st (Z.of_nat t) = Raise IndexError.
Proof.
  intros Hx Hf He. unfold run_test_body.
  destruct (Z.ltb_spec (Z.of_nat t) (Z.of_nat (length xs))); [|lia].
  destruct (lookup_lt_is_Some_2 xfp t Hf) as [xf Hxf].
  rewrite (proj2 (getitem_Ok xfp (Z.of_nat t) xf ltac:(lia)))
    by (by rewrite Nat2Z.id).
  simpl. rewrite getitem_lookup by lia.
  rewrite Nat2Z.id, lookup_ge_None_2 by lia. reflexivity.
Qed.

(** X21.  With fewer expected values than inputs, on such an evaluator
    and when no float operation raises, [run_test] raises [IndexError], and
    does so on the cycle that presents the first input without an expected
    value: all inputs are converted, the cycles [0 .. len(expected_reals) -
    1] run, clocking the evaluator once each, and the body of cycle
    [len(expected_reals)] raises before it clocks the evaluator. *)
Theorem run_test_short_expected (F : FloatOps) (dut : TaylorPolyPipeline)
    (xs es : list (float F)) (tol_lsb : Z) (tol : float F) :
  wf_params dut -> wf_regs dut -> flushed dut 0 ->
  dut.(latency) = dut.(order) + 1 ->
  int_div F tol_lsb (2 ^ dut.(FB)) = Ok tol ->
  Forall (converts F dut) xs ->
  (length es < length xs)%nat ->
  run_test F dut xs es tol_lsb = Raise IndexError /\
  exists (xfp : list Z) (st : run_state F) (outs : list (bool * Z)),
    list_comp (fun x => real_to_fp F x dut.(FB) dut.(DW)) xs = Ok xfp /\
    Py.for_each (run_test_body F xs es xfp tol dut.(FB))
      (mkRunState dut (Py.repeat (float_zero F) dut.(latency)) 0 0 [])
      (Py.range 0 (Z.of_nat (length es))) = Ok st /\
    clocks dut (take (length es) ((fun xf => (true, xf)) <$> xfp))
    = Ok (st.(rs_dut), outs) /\
    run_test_body F xs es xfp tol dut.(FB) st (Z.of_nat (length es))
    = Raise IndexError /\
    (exists xin,
       Py.getitem xfp (Z.of_nat (length es)) = Ok xin /\
       Py.getitem es (Z.of_nat (length es)) = Raise IndexError).
Proof.
  intros Hp Hr Hfl Hlat Htol Hconv Hes. pose proof Hp as [Hdw Hfb HN Hcs].
  set (n := Z.to_nat dut.(order)).
  destruct (list_comp_spec (fun x => real_to_fp F x dut.(FB) dut.(DW)) xs)
    as (xfp & Hcomp & Hxl & Hxfp).
  { by apply converts_real_to_fp. }
  destruct (harness_loop F dut xs es xfp tol
              Hp Hr Hfl Hlat Hxl Hxfp Hconv (length es) (length es) 0
              (mkRunState dut (Py.repeat (float_zero F) dut.(latency)) 0 0 []))
    as (st' & Hloop & Hinv); [lia | fold n; lia | intros; lia | by apply harness_inv_init |].
  change (Z.of_nat 0) with 0 in Hloop.
  assert (run_test_body F xs es xfp tol dut.(FB) st' (Z.of_nat (length es))
          = Raise IndexError) as Hbody
    by (apply run_test_body_short; lia).
  split.
  - unfold run_test. rewrite lshift_Ok by done. simpl.
    rewrite Z.mul_1_l, Htol. simpl. rewrite Hcomp. simpl.
    replace (Z.of_nat (length xs) + latency dut) with (Z.of_nat (length xs + S n))
      by (rewrite Hlat; unfold n; lia).
    rewrite (range_app 0 (Z.of_nat (length es))) by lia.
    rewrite for_each_app, Hloop. simpl.
    rewrite range_cons by lia. simpl. by rewrite Hbody.
  - destruct Hinv as ((outs & Hrun) & _).
    exists xfp, st', outs. split; [done|]. split; [done|].
    split.
    { unfold harness_ins in Hrun. rewrite take_app_le in Hrun; [done|].
      rewrite length_fmap. lia. }
    split; [done|].
    destruct (lookup_lt_is_Some_2 xfp (length es) ltac:(lia)) as [xin Hxin].
    exists xin. split.
    + apply getitem_Ok; [lia|]. by rewrite Nat2Z.id.
    + rewrite getitem_lookup by lia.
      by rewrite Nat2Z.id, lookup_ge_None_2 by lia.
Qed.

Lemma run_test_short_expected_witness :
  run_test binary64 quad_dut [double_of 3 0; double_of 2 0] [double_of 9 0] 2
  = Raise IndexError /\
  exists st outs,
    Py.for_each (run_test_body binary64 [double_of 3 0; double_of 2 0] [double_of 9 0]
                   [196608; 131072] (double_of 1 (-15)) 16)
      (mkRunState quad_dut (Py.repeat (float_zero binary64) 3) 0 0 [])
      (Py.range 0 1) = Ok st /\
    clocks quad_dut [(true, 196608)] = Ok (st.(rs_dut), outs) /\
    run_test_body binary64 [double_of 3 0; double_of 2 0] [double_of 9 0]
      [196608; 131072] (double_of 1 (-15)) 16 st 1 = Raise IndexError.
Proof.
  destruct quad_dut_ready as (Hp & Hr & Hfl & Hlat).
  destruct (run_test_short_expected binary64 quad_dut
              [double_of 3 0; double_of 2 0] [double_of 9 0] 2 (double_of 1 (-15))
              Hp Hr Hfl Hlat ltac:(vm_compute; reflexivity)
              ltac:(repeat (constructor; [converts_by_evaluation|]); constructor)
              ltac:(simpl; lia))
    as (Hraise & xfp & st & outs & Hcomp & Hloop & Hrun & Hbody & _).
  split; [exact Hraise|].
  vm_compute in Hcomp. injection Hcomp as <-.
  exists st, outs. split; [exact Hloop|]. split; [exact Hrun | exact Hbody].
Defined.
